(** * CanvasGrid: a shallow embedding of the pan/zoom grid viewer

    The development follows [src/components/CanvasGrid.tsx] and the way
    [src/App.tsx] instantiates it.

    Number model.  A TypeScript [number] is modelled by an exact rational
    ([Q]); equality of numbers ([===]) is [Qeq_bool], [Math.min], [Math.max]
    and [Math.floor] are [Qmin], [Qmax] and [Qfloor].  Rounding, infinities
    and NaN are outside this model.  The program computes in IEEE doubles,
    so the theorems over this model state what does not depend on rounding:
    invariants, frame conditions, which handler stores and calls what, and
    identities between continuous quantities, which the doubles of the
    program satisfy up to rounding.  Which cell a point falls in does depend
    on rounding: [F64] embeds the hit tester over binary64 numbers, with
    their infinities and NaN, and the hit-test theorem is stated there.
    Values produced by [Math.floor] and DOM pointer ids are integers ([Z]).

    React model.  The values kept by [useState] and [useRef], together with
    the DOM state the handlers touch, form one record [State].  A handler is
    a function from the state of the render it was created in to the next
    state; an updater queued by [setX] never changes what the running handler
    reads.  Calls of the host callbacks are returned as a trace.
    [evt.preventDefault()] touches none of this and is left out, as is the
    effect that sizes the backing store of the canvas. *)

From Stdlib Require Import ZArith QArith Qround Qminmax Lia Lqa List String.
From Stdlib Require Import DecimalString.
From Stdlib Require Import PrimFloat SpecFloat FloatOps Uint63.
From stdpp Require Import gmap.
Import ListNotations.

Local Open Scope Q_scope.

(** ** Data model *)

Module Point.
Record t : Type := mk { x : Q; y : Q }.
End Point.
Abbreviation Point := Point.t.

Module Cell.
Record t : Type := mk { row : Z; col : Z }.
End Cell.
Abbreviation Cell := Cell.t.

Module Size.
Record t : Type := mk { width : Q; height : Q }.
End Size.
Abbreviation Size := Size.t.

(** [canvas.getBoundingClientRect()]: only [left] and [top] are read. *)
Module DOMRect.
Record t : Type := mk { left : Q; top : Q }.
End DOMRect.
Abbreviation DOMRect := DOMRect.t.

(** The canvas element behind [canvasRef.current]: its bounding rectangle,
    the size of its backing store and whether [getContext('2d')] succeeds. *)
Module Canvas.
Record t : Type := mk {
  getBoundingClientRect : DOMRect;
  width : Q;
  height : Q;
  context2d : bool }.
End Canvas.
Abbreviation Canvas := Canvas.t.

(** The object held by the [panState] ref. *)
Module PanState.
Record t : Type := mk {
  dragging : bool;
  pointerId : Z;
  start : Point;
  origin : Point }.
End PanState.
Abbreviation PanState := PanState.t.

Module PointerEvent.
Record t : Type := mk { pointerId : Z; clientX : Q; clientY : Q }.
End PointerEvent.
Abbreviation PointerEvent := PointerEvent.t.

Module MouseEvent.
Record t : Type := mk { clientX : Q; clientY : Q }.
End MouseEvent.
Abbreviation MouseEvent := MouseEvent.t.

Module WheelEvent.
Record t : Type := mk { clientX : Q; clientY : Q; deltaY : Q }.
End WheelEvent.
Abbreviation WheelEvent := WheelEvent.t.

(** [CanvasGridProps].  [onHover] and [onSelect] are optional in the source:
    the flag says whether the host supplied the callback. *)
Module Props.
Record t : Type := mk {
  rows : Q;
  cols : Q;
  cellSize : Q;
  onHover : bool;
  onSelect : bool }.
End Props.
Abbreviation CanvasGridProps := Props.t.

(** One invocation of a host callback. *)
Inductive Call : Type :=
| onHover (row col : Z)
| onSelect (row col : Z).

(** [f?.(args)]: the call happens only when [f] is defined. *)
Definition optionalCall (supplied : bool) (c : Call) : list Call :=
  if supplied then [c] else [].

(** The component state: the five [useState] cells, the two refs that the
    handlers read, and the set of pointer ids captured by the canvas. *)
Record State : Type := mkState {
  scale : Q;
  offset : Point;
  hoveredCell : option Cell;
  selectedCell : option Cell;
  canvasSize : Size;
  panState : PanState;
  canvasRef : option Canvas;
  pointerCapture : gset Z }.

Definition MIN_SCALE : Q := 0.25.
Definition MAX_SCALE : Q := 4.

Definition clamp (value min max : Q) : Q :=
  Qmin (Qmax value min) max.

(** The state of the first render, for a given mounted canvas (or none). *)
Definition initialState (canvas : option Canvas) : State :=
  {| scale := 1;
     offset := Point.mk 0 0;
     hoveredCell := None;
     selectedCell := None;
     canvasSize := Size.mk 1200 800;
     panState := PanState.mk false (-1) (Point.mk 0 0) (Point.mk 0 0);
     canvasRef := canvas;
     pointerCapture := ∅ |}.

(** State setters, one per [useState] setter, ref assignment or DOM call. *)
Definition setScale (v : Q) (st : State) : State :=
  mkState v (offset st) (hoveredCell st) (selectedCell st) (canvasSize st)
          (panState st) (canvasRef st) (pointerCapture st).

Definition setOffset (v : Point) (st : State) : State :=
  mkState (scale st) v (hoveredCell st) (selectedCell st) (canvasSize st)
          (panState st) (canvasRef st) (pointerCapture st).

Definition setHoveredCell (v : option Cell) (st : State) : State :=
  mkState (scale st) (offset st) v (selectedCell st) (canvasSize st)
          (panState st) (canvasRef st) (pointerCapture st).

Definition setSelectedCell (v : option Cell) (st : State) : State :=
  mkState (scale st) (offset st) (hoveredCell st) v (canvasSize st)
          (panState st) (canvasRef st) (pointerCapture st).

Definition setCanvasSize (v : Size) (st : State) : State :=
  mkState (scale st) (offset st) (hoveredCell st) (selectedCell st) v
          (panState st) (canvasRef st) (pointerCapture st).

Definition setPanState (v : PanState) (st : State) : State :=
  mkState (scale st) (offset st) (hoveredCell st) (selectedCell st)
          (canvasSize st) v (canvasRef st) (pointerCapture st).

Definition setPointerCapture (pointerId : Z) (st : State) : State :=
  mkState (scale st) (offset st) (hoveredCell st) (selectedCell st)
          (canvasSize st) (panState st) (canvasRef st)
          ({[ pointerId ]} ∪ pointerCapture st).

Definition releasePointerCapture (pointerId : Z) (st : State) : State :=
  mkState (scale st) (offset st) (hoveredCell st) (selectedCell st)
          (canvasSize st) (panState st) (canvasRef st)
          (pointerCapture st ∖ {[ pointerId ]}).

(** ** Drawing commands

    What the render effect asks of the 2D context, in order. *)

Inductive Paint : Type :=
| Color (css : string)
| LinearGradient (x0 y0 x1 y1 : Q) (stops : list (Q * string)).

Module Ctx.
Inductive op : Type :=
| save
| restore
| setTransform (a b c d e f : Q)
| clearRect (x y w h : Q)
| scale (sx sy : Q)
| translate (tx ty : Q)
| fillStyle (p : Paint)
| strokeStyle (p : Paint)
| lineWidth (w : Q)
| fillRect (x y w h : Q)
| strokeRect (x y w h : Q)
| beginPath
| moveTo (x y : Q)
| lineTo (x y : Q)
| stroke.
End Ctx.

(** The values taken by [i] in [for (let i = 0; i <= n; i++)]. *)
Definition loopIndices (n : Q) : list Z :=
  map Z.of_nat (seq 0 (Z.to_nat (Qfloor n + 1))).

(** Input events of the canvas, and the resize notification. *)
Inductive Event : Type :=
| PointerDown (evt : PointerEvent)
| PointerMove (evt : PointerEvent)
| PointerUp (evt : PointerEvent)
| PointerLeave
| Click (evt : MouseEvent)
| Wheel (evt : WheelEvent)
| Resize (contentRect : Size).

(** ** The component *)

Section CanvasGrid.

Context (props : CanvasGridProps).

(** Hit tester, over exact rationals ([F64.getCellFromClientPoint] is the
    same function over doubles).  [st] is the state of the render that built
    the closure. *)
Definition getCellFromClientPoint (st : State) (clientX clientY : Q)
  : option Cell :=
  match canvasRef st with
  | None => None
  | Some canvas =>
      let rect := Canvas.getBoundingClientRect canvas in
      let x := (clientX - DOMRect.left rect - Point.x (offset st)) / scale st in
      let y := (clientY - DOMRect.top rect - Point.y (offset st)) / scale st in
      let col := Qfloor (x / Props.cellSize props) in
      let row := Qfloor (y / Props.cellSize props) in
      if (row <? 0)%Z || (col <? 0)%Z
         || Qle_bool (Props.rows props) (inject_Z row)
         || Qle_bool (Props.cols props) (inject_Z col)
      then None
      else Some (Cell.mk row col)
  end.

Definition handlePointerDown (st : State) (evt : PointerEvent) : State :=
  let st1 :=
    setPanState
      (PanState.mk true
         (PointerEvent.pointerId evt)
         (Point.mk (PointerEvent.clientX evt) (PointerEvent.clientY evt))
         (offset st))
      st in
  setPointerCapture (PointerEvent.pointerId evt) st1.

(** [setOffset] only queues the new offset: the hit test below still runs
    on [st], the state captured by the closure. *)
Definition handlePointerMove (st : State) (evt : PointerEvent)
  : State * list Call :=
  let ps := panState st in
  let st1 :=
    if PanState.dragging ps
       && (PanState.pointerId ps =? PointerEvent.pointerId evt)%Z
    then
      let dx := PointerEvent.clientX evt - Point.x (PanState.start ps) in
      let dy := PointerEvent.clientY evt - Point.y (PanState.start ps) in
      setOffset
        (Point.mk (Point.x (PanState.origin ps) + dx)
                  (Point.y (PanState.origin ps) + dy))
        st
    else st in
  let cell :=
    getCellFromClientPoint st
      (PointerEvent.clientX evt) (PointerEvent.clientY evt) in
  (setHoveredCell cell st1,
   optionalCall (Props.onHover props)
     (onHover
        (match cell with Some c => Cell.row c | None => -1 end)
        (match cell with Some c => Cell.col c | None => -1 end))).

Definition handlePointerUp (st : State) (evt : PointerEvent) : State :=
  let ps := panState st in
  let st1 :=
    if (PanState.pointerId ps =? PointerEvent.pointerId evt)%Z
    then
      setPanState
        (PanState.mk false (PanState.pointerId ps)
           (PanState.start ps) (PanState.origin ps))
        st
    else st in
  releasePointerCapture (PointerEvent.pointerId evt) st1.

Definition handlePointerLeave (st : State) : State * list Call :=
  (setHoveredCell None st,
   optionalCall (Props.onHover props) (onHover (-1) (-1))).

Definition handleClick (st : State) (evt : MouseEvent)
  : State * list Call :=
  let cell :=
    getCellFromClientPoint st
      (MouseEvent.clientX evt) (MouseEvent.clientY evt) in
  match cell with
  | Some c =>
      (setSelectedCell (Some c) st,
       optionalCall (Props.onSelect props)
         (onSelect (Cell.row c) (Cell.col c)))
  | None => (st, [])
  end.

(** The updaters passed to [setScale] and [setOffset] receive the current
    scale and offset, which are those of [st]. *)
Definition handleWheel (st : State) (evt : WheelEvent) : State :=
  match canvasRef st with
  | None => st
  | Some canvas =>
      let rect := Canvas.getBoundingClientRect canvas in
      let mouseX := WheelEvent.clientX evt - DOMRect.left rect in
      let mouseY := WheelEvent.clientY evt - DOMRect.top rect in
      let prevScale := scale st in
      let nextScale :=
        clamp (prevScale - WheelEvent.deltaY evt * 0.001)
              MIN_SCALE MAX_SCALE in
      if Qeq_bool nextScale prevScale then st
      else
        let ratio := nextScale / prevScale in
        let prevOffset := offset st in
        setScale nextScale
          (setOffset
             (Point.mk (mouseX - (mouseX - Point.x prevOffset) * ratio)
                       (mouseY - (mouseY - Point.y prevOffset) * ratio))
             st)
  end.

(** The [ResizeObserver] callback, for the content rectangle of the
    first entry. *)
Definition handleResize (st : State) (contentRect : Size) : State :=
  setCanvasSize
    (Size.mk (Qmax (Size.width contentRect) 200)
             (Qmax (Size.height contentRect) 200))
    st.

(** The [if (hoveredCell)] block of the render effect. *)
Definition drawHovered (st : State) : list Ctx.op :=
  match hoveredCell st with
  | Some hoveredCell =>
      [ Ctx.fillStyle (Color "rgba(255,255,255,0.08)");
        Ctx.fillRect
          (inject_Z (Cell.col hoveredCell) * Props.cellSize props)
          (inject_Z (Cell.row hoveredCell) * Props.cellSize props)
          (Props.cellSize props)
          (Props.cellSize props) ]
  | None => []
  end.

(** The [if (selectedCell)] block of the render effect. *)
Definition drawSelected (st : State) : list Ctx.op :=
  match selectedCell st with
  | Some selectedCell =>
      [ Ctx.strokeStyle (Color "#ff9800");
        Ctx.lineWidth (2 / scale st);
        Ctx.strokeRect
          (inject_Z (Cell.col selectedCell) * Props.cellSize props
           + (1 / scale st) * 0.5)
          (inject_Z (Cell.row selectedCell) * Props.cellSize props
           + (1 / scale st) * 0.5)
          (Props.cellSize props - 1 / scale st)
          (Props.cellSize props - 1 / scale st) ]
  | None => []
  end.

(** The render effect, for a given [window.devicePixelRatio]. *)
Definition renderEffect (devicePixelRatio : Q) (st : State) : list Ctx.op :=
  match canvasRef st with
  | None => []
  | Some canvas =>
      if negb (Canvas.context2d canvas) then []
      else
        let dpr :=
          if Qeq_bool devicePixelRatio 0 then 1 else devicePixelRatio in
        let gridWidth := Props.cols props * Props.cellSize props in
        let gridHeight := Props.rows props * Props.cellSize props in
        [ Ctx.save;
          Ctx.setTransform 1 0 0 1 0 0;
          Ctx.clearRect 0 0 (Canvas.width canvas) (Canvas.height canvas);
          Ctx.scale dpr dpr;
          Ctx.translate (Point.x (offset st)) (Point.y (offset st));
          Ctx.scale (scale st) (scale st);
          Ctx.fillStyle
            (LinearGradient 0 0 gridWidth gridHeight
               [(0, "#0f0f15"%string); (1, "#111820"%string)]);
          Ctx.fillRect 0 0 gridWidth gridHeight;
          Ctx.strokeStyle (Color "#242628");
          Ctx.lineWidth (1 / scale st) ]
        ++ flat_map
             (fun r =>
                let y := inject_Z r * Props.cellSize props in
                [ Ctx.beginPath; Ctx.moveTo 0 y; Ctx.lineTo gridWidth y;
                  Ctx.stroke ])
             (loopIndices (Props.rows props))
        ++ flat_map
             (fun c =>
                let x := inject_Z c * Props.cellSize props in
                [ Ctx.beginPath; Ctx.moveTo x 0; Ctx.lineTo x gridHeight;
                  Ctx.stroke ])
             (loopIndices (Props.cols props))
        ++ drawHovered st
        ++ drawSelected st
        ++ [ Ctx.restore ]
  end.

(** One event, handled by the handler the canvas binds to it. *)
Definition dispatch (st : State) (ev : Event) : State * list Call :=
  match ev with
  | PointerDown evt => (handlePointerDown st evt, [])
  | PointerMove evt => handlePointerMove st evt
  | PointerUp evt => (handlePointerUp st evt, [])
  | PointerLeave => handlePointerLeave st
  | Click evt => handleClick st evt
  | Wheel evt => (handleWheel st evt, [])
  | Resize contentRect => (handleResize st contentRect, [])
  end.

(** A run of the component: every event is handled by the closures of the
    render that follows the previous event. *)
Fixpoint run (st : State) (evs : list Event) : State * list Call :=
  match evs with
  | [] => (st, [])
  | ev :: evs' =>
      let (st1, calls1) := dispatch st ev in
      let (st2, calls2) := run st1 evs' in
      (st2, calls1 ++ calls2)
  end.

End CanvasGrid.

(** The instance built by [App]: a 200 x 200 grid of 32-pixel cells with
    both callbacks supplied. *)
Definition App_props : CanvasGridProps :=
  Props.mk 200 200 32 true true.

(** Two surfaces for the examples: one whose corner is the client origin,
    one whose corner is at client point (10, 20); both have a 1200 x 800
    backing store and a 2D context. *)
Definition canvasAtOrigin : Canvas :=
  Canvas.mk (DOMRect.mk 0 0) 1200 800 true.

Definition canvasBelowHeader : Canvas :=
  Canvas.mk (DOMRect.mk 10 20) 1200 800 true.

(** ** The hit tester in double precision

    The numbers of [F64] are the binary64 numbers of the program:
    subtraction, division and the comparisons are those of IEEE 754, as
    JavaScript has them ([<] and [>=] are false on NaN). *)
Module F64.

Module Point.
Record t : Type := mk { x : float; y : float }.
End Point.

Module Cell.
Record t : Type := mk { row : float; col : float }.
End Cell.

Module DOMRect.
Record t : Type := mk { left : float; top : float }.
End DOMRect.

Module Props.
Record t : Type := mk { rows : float; cols : float; cellSize : float }.
End Props.

(** What the hit tester reads of a render: the bounding rectangle of the
    canvas behind [canvasRef.current], if there is one, the scale and the
    offset. *)
Record View : Type := mkView {
  canvasRef : option DOMRect.t;
  scale : float;
  offset : Point.t }.

(** The binary64 number of an integer of magnitude below 2^63; the integers
    used here are below 2^53 and are represented exactly. *)
Definition ofZ (z : Z) : float :=
  if (z <? 0)%Z
  then PrimFloat.opp (PrimFloat.of_uint63 (Uint63.of_Z (- z)))
  else PrimFloat.of_uint63 (Uint63.of_Z z).

(** [Math.floor]: NaN, the infinities and the zeros are returned as they
    are, and so is a finite number [m * 2^e] with [0 <= e], an integer; for
    [e < 0] the result is the integer quotient, rounded down, of the signed
    mantissa by [2^(-e)]. *)
Definition floor (v : float) : float :=
  match Prim2SF v with
  | S754_finite s m e =>
      if (0 <=? e)%Z then v
      else ofZ ((if s then Z.neg m else Z.pos m) / 2 ^ (- e))
  | _ => v
  end.

Definition getCellFromClientPoint (props : Props.t) (view : View)
  (clientX clientY : float) : option Cell.t :=
  match canvasRef view with
  | None => None
  | Some rect =>
      let x :=
        ((clientX - DOMRect.left rect - Point.x (offset view))
         / scale view)%float in
      let y :=
        ((clientY - DOMRect.top rect - Point.y (offset view))
         / scale view)%float in
      let col := floor (x / Props.cellSize props)%float in
      let row := floor (y / Props.cellSize props)%float in
      if (row <? 0)%float || (col <? 0)%float
         || (Props.rows props <=? row)%float
         || (Props.cols props <=? col)%float
      then None
      else Some (Cell.mk row col)
  end.

End F64.

(** ** The mount effect

    The container element behind [containerRef.current]. *)
Module Container.
Record t : Type := mk { clientWidth : Q; clientHeight : Q }.
End Container.
Abbreviation Container := Container.t.

(** The first effect of the component: without a container it returns at
    once; otherwise it starts observing the container (the notifications are
    the [Resize] events) and sizes the surface from the client size of the
    container, where [||] replaces a zero dimension by 1200 or 800. *)
Definition mountEffect (container : option Container) (st : State) : State :=
  match container with
  | None => st
  | Some container =>
      setCanvasSize
        (Size.mk
           (if Qeq_bool (Container.clientWidth container) 0 then 1200
            else Container.clientWidth container)
           (if Qeq_bool (Container.clientHeight container) 0 then 800
            else Container.clientHeight container))
        st
  end.

(** ** The host application

    [App] keeps two strings and hands two callbacks to the grid.  A template
    literal prints an integer in decimal. *)
Module App.
Record t : Type := mk { hoverCoords : string; selectedCoords : string }.
End App.

Definition showNumber (n : Z) : string :=
  NilZero.string_of_int (Z.to_int n).

(** The template [`(${row}, ${col})`]. *)
Definition formatCoords (row col : Z) : string :=
  ("(" ++ showNumber row ++ ", " ++ showNumber col ++ ")")%string.

Definition App_initial : App.t := App.mk "–" "–".

Definition App_onHover (row col : Z) (app : App.t) : App.t :=
  App.mk
    (if (0 <=? row)%Z && (0 <=? col)%Z then formatCoords row col else "–")
    (App.selectedCoords app).

Definition App_onSelect (row col : Z) (app : App.t) : App.t :=
  App.mk (App.hoverCoords app) (formatCoords row col).

(** The host runs the callback named by a call of the grid. *)
Definition App_call (app : App.t) (c : Call) : App.t :=
  match c with
  | onHover row col => App_onHover row col app
  | onSelect row col => App_onSelect row col app
  end.

(** [App] with its grid, from the first render through a list of events. *)
Definition App_run (canvas : option Canvas) (evs : list Event)
  : State * App.t :=
  let (st, calls) := run App_props (initialState canvas) evs in
  (st, fold_left App_call calls App_initial).

(** What a label of [App] reads for a cell of the grid, or for none. *)
Definition labelOf (cell : option Cell) : string :=
  match cell with
  | Some c => formatCoords (Cell.row c) (Cell.col c)
  | None => "–"
  end.

(** Observers of drawing commands, used to count them. *)
Definition isStroke (o : Ctx.op) : bool :=
  match o with Ctx.stroke => true | _ => false end.

Definition isSaveOrRestore (o : Ctx.op) : bool :=
  match o with Ctx.save | Ctx.restore => true | _ => false end.

(** ** The mount effect and runs

    Two states that differ at most in the stored surface size. *)
Definition sameButSize (s s' : State) : Prop :=
  scale s' = scale s /\ offset s' = offset s
  /\ hoveredCell s' = hoveredCell s /\ selectedCell s' = selectedCell s
  /\ panState s' = panState s /\ canvasRef s' = canvasRef s
  /\ pointerCapture s' = pointerCapture s.

(** Comparisons of numerals are settled by evaluation. *)
Ltac by_evaluation := vm_compute; first [reflexivity | discriminate].

(** ** Basic facts about the model *)

Lemma MIN_SCALE_le_MAX_SCALE : MIN_SCALE <= MAX_SCALE.
Proof. unfold MIN_SCALE, MAX_SCALE. lra. Qed.

Lemma MIN_SCALE_pos : 0 < MIN_SCALE.
Proof. unfold MIN_SCALE. lra. Qed.

Lemma clamp_between (value lo hi : Q) :
  lo <= hi -> lo <= clamp value lo hi <= hi.
Proof.
  intros Hlohi. unfold clamp. split.
  - apply Q.min_glb; [apply Q.le_max_r | exact Hlohi].
  - apply Q.le_min_r.
Qed.

Lemma clamp_scale_bounds (value : Q) :
  MIN_SCALE <= clamp value MIN_SCALE MAX_SCALE <= MAX_SCALE.
Proof. apply clamp_between, MIN_SCALE_le_MAX_SCALE. Qed.

(** [loopIndices n] lists exactly the integers [i] with [0 <= i <= n]. *)
Lemma loopIndices_spec (n : Q) (i : Z) :
  In i (loopIndices n) <-> (0 <= i)%Z /\ inject_Z i <= n.
Proof.
  unfold loopIndices. rewrite in_map_iff. split.
  - intros (k & <- & Hk). apply in_seq in Hk. split; [lia |].
    assert (Hfl : (Z.of_nat k <= Qfloor n)%Z) by lia.
    apply Qle_trans with (inject_Z (Qfloor n)); [| apply Qfloor_le].
    rewrite <- Zle_Qle. exact Hfl.
  - intros [Hi Hn]. exists (Z.to_nat i). split; [lia |].
    apply in_seq.
    assert (Hfl : (i <= Qfloor n)%Z).
    { rewrite <- (Qfloor_Z i). apply Qfloor_resp_le, Hn. }
    lia.
Qed.

(** The two outcomes of a wheel event: nothing changes, or both the scale
    and the offset are replaced. *)
Lemma handleWheel_cases (st : State) (evt : WheelEvent) :
  let nextScale :=
    clamp (scale st - WheelEvent.deltaY evt * 0.001) MIN_SCALE MAX_SCALE in
  (handleWheel st evt = st /\ (canvasRef st = None \/ nextScale == scale st))
  \/
  (exists canvas,
      canvasRef st = Some canvas /\
      ~ nextScale == scale st /\
      let rect := Canvas.getBoundingClientRect canvas in
      let mouseX := WheelEvent.clientX evt - DOMRect.left rect in
      let mouseY := WheelEvent.clientY evt - DOMRect.top rect in
      let ratio := nextScale / scale st in
      handleWheel st evt =
      setScale nextScale
        (setOffset
           (Point.mk (mouseX - (mouseX - Point.x (offset st)) * ratio)
                     (mouseY - (mouseY - Point.y (offset st)) * ratio))
           st)).
Proof.
  intros nextScale. unfold handleWheel.
  destruct (canvasRef st) as [canvas |]; [| left; split; [reflexivity | left; reflexivity]].
  fold nextScale.
  destruct (Qeq_bool nextScale (scale st)) eqn:Heq.
  - left. split; [reflexivity | right; apply Qeq_bool_eq, Heq].
  - right. exists canvas. split; [reflexivity |].
    split; [apply Qeq_bool_neq, Heq | reflexivity].
Qed.

Lemma handleWheel_scale_bounds (st : State) (evt : WheelEvent) :
  MIN_SCALE <= scale st <= MAX_SCALE ->
  MIN_SCALE <= scale (handleWheel st evt) <= MAX_SCALE.
Proof.
  intros Hst.
  destruct (handleWheel_cases st evt) as [[-> _] | (canvas & _ & _ & ->)].
  - exact Hst.
  - cbn. apply clamp_scale_bounds.
Qed.

Lemma handlePointerMove_scale (props : CanvasGridProps) (st : State)
  (evt : PointerEvent) :
  scale (fst (handlePointerMove props st evt)) = scale st.
Proof.
  unfold handlePointerMove. cbn.
  destruct (PanState.dragging (panState st)
            && (PanState.pointerId (panState st)
                =? PointerEvent.pointerId evt)%Z); reflexivity.
Qed.

Lemma handlePointerUp_scale (st : State) (evt : PointerEvent) :
  scale (handlePointerUp st evt) = scale st.
Proof.
  unfold handlePointerUp. cbn.
  destruct (PanState.pointerId (panState st)
            =? PointerEvent.pointerId evt)%Z; reflexivity.
Qed.

Lemma handleClick_scale (props : CanvasGridProps) (st : State)
  (evt : MouseEvent) :
  scale (fst (handleClick props st evt)) = scale st.
Proof.
  unfold handleClick.
  destruct (getCellFromClientPoint props st _ _); reflexivity.
Qed.

Lemma dispatch_scale_bounds (props : CanvasGridProps) (st : State)
  (ev : Event) :
  MIN_SCALE <= scale st <= MAX_SCALE ->
  MIN_SCALE <= scale (fst (dispatch props st ev)) <= MAX_SCALE.
Proof.
  intros Hst. destruct ev as [evt | evt | evt | | evt | evt | rect]; cbn [dispatch fst].
  - exact Hst.
  - rewrite handlePointerMove_scale. exact Hst.
  - rewrite handlePointerUp_scale. exact Hst.
  - exact Hst.
  - rewrite handleClick_scale. exact Hst.
  - apply handleWheel_scale_bounds, Hst.
  - exact Hst.
Qed.

Lemma run_scale_bounds (props : CanvasGridProps) (evs : list Event) :
  forall st : State,
    MIN_SCALE <= scale st <= MAX_SCALE ->
    MIN_SCALE <= scale (fst (run props st evs)) <= MAX_SCALE.
Proof.
  induction evs as [| ev evs IH]; intros st Hst; cbn [run].
  - exact Hst.
  - pose proof (dispatch_scale_bounds props st ev Hst) as Hstep.
    destruct (dispatch props st ev) as [st1 calls1]. cbn [fst] in Hstep.
    specialize (IH st1 Hstep).
    destruct (run props st1 evs) as [st2 calls2]. exact IH.
Qed.

(** ** Zoom *)

(** C2. Scale bound invariant: from the initial state (scale 1), after any
    sequence of events, with arbitrary wheel deltas, the scale lies between
    0.25 and 4; and every handler other than the wheel handler leaves the
    scale as it was. *)
Theorem scale_bound_invariant (props : CanvasGridProps)
  (canvas : option Canvas) (evs : list Event) :
  (0.25 <= scale (fst (run props (initialState canvas) evs)) <= 4)
  /\
  (forall (st : State) (pe : PointerEvent) (me : MouseEvent) (sz : Size),
      scale (fst (dispatch props st (PointerDown pe))) = scale st /\
      scale (fst (dispatch props st (PointerMove pe))) = scale st /\
      scale (fst (dispatch props st (PointerUp pe))) = scale st /\
      scale (fst (dispatch props st PointerLeave)) = scale st /\
      scale (fst (dispatch props st (Click me))) = scale st /\
      scale (fst (dispatch props st (Resize sz))) = scale st).
Proof.
  split.
  - apply (run_scale_bounds props evs (initialState canvas)).
    cbn. unfold MIN_SCALE, MAX_SCALE. lra.
  - intros st pe me sz. cbn [dispatch fst].
    rewrite handlePointerMove_scale, handlePointerUp_scale, handleClick_scale.
    repeat split; reflexivity.
Qed.

(** C8. Wheel no-op: the wheel handler of a mounted canvas leaves the scale
    equal to [clamp (prevScale - deltaY * 0.001) 0.25 4]; whenever that value
    equals the previous scale the event changes nothing, so both the scale
    and the offset are left as they were. *)
Theorem wheel_noop_when_scale_unchanged (st : State) (evt : WheelEvent) :
  let nextScale :=
    clamp (scale st - WheelEvent.deltaY evt * 0.001) 0.25 4 in
  (forall canvas : Canvas,
      canvasRef st = Some canvas -> scale (handleWheel st evt) == nextScale)
  /\
  (nextScale == scale st ->
   handleWheel st evt = st /\
   scale (handleWheel st evt) = scale st /\
   offset (handleWheel st evt) = offset st).
Proof.
  intros nextScale.
  pose proof (handleWheel_cases st evt) as Hcases.
  change (clamp (scale st - WheelEvent.deltaY evt * 0.001)
            MIN_SCALE MAX_SCALE) with nextScale in Hcases.
  cbv zeta in Hcases.
  split.
  - intros canvas Hcanvas.
    destruct Hcases as [[-> [Hnone | Heq]] | (canvas' & _ & _ & ->)].
    + congruence.
    + symmetry. exact Heq.
    + cbn [scale setScale]. reflexivity.
  - intros Heq.
    destruct Hcases as [[-> _] | (canvas' & _ & Hneq & _)].
    + repeat split.
    + contradiction.
Qed.

(** C1. Zoom about the cursor: when a wheel event at client point P changes
    the scale of a state whose scale is within bounds, the grid-space point
    under P is the same before and after, and the new offset is
    [m - (m - oldOffset) * (next / prev)] on each axis, where [m] is P
    measured from the corner of the surface.  These are identities between
    numbers: the doubles of the program satisfy them up to rounding. *)
Theorem zoom_about_cursor (st : State) (evt : WheelEvent)
  (canvas : Canvas) :
  canvasRef st = Some canvas ->
  MIN_SCALE <= scale st <= MAX_SCALE ->
  ~ scale (handleWheel st evt) == scale st ->
  let st' := handleWheel st evt in
  let rect := Canvas.getBoundingClientRect canvas in
  let Px := WheelEvent.clientX evt in
  let Py := WheelEvent.clientY evt in
  let mouseX := Px - DOMRect.left rect in
  let mouseY := Py - DOMRect.top rect in
  (Px - DOMRect.left rect - Point.x (offset st')) / scale st'
  == (Px - DOMRect.left rect - Point.x (offset st)) / scale st
  /\
  (Py - DOMRect.top rect - Point.y (offset st')) / scale st'
  == (Py - DOMRect.top rect - Point.y (offset st)) / scale st
  /\
  Point.x (offset st')
  == mouseX - (mouseX - Point.x (offset st)) * (scale st' / scale st)
  /\
  Point.y (offset st')
  == mouseY - (mouseY - Point.y (offset st)) * (scale st' / scale st).
Proof.
  intros Hcanvas [Hlo _] Hchanged st' rect Px Py mouseX mouseY.
  pose proof MIN_SCALE_pos as Hmin.
  assert (Hprev : ~ scale st == 0) by lra.
  destruct (handleWheel_cases st evt)
    as [[Hsame _] | (canvas' & Hcanvas' & _ & Hst')].
  { exfalso. apply Hchanged. rewrite Hsame. reflexivity. }
  assert (canvas' = canvas) as -> by congruence.
  cbv zeta in Hst'.
  set (nextScale :=
         clamp (scale st - WheelEvent.deltaY evt * 0.001)
               MIN_SCALE MAX_SCALE) in *.
  assert (Hnext : ~ nextScale == 0).
  { pose proof (clamp_scale_bounds
                  (scale st - WheelEvent.deltaY evt * 0.001)) as [Hn _].
    fold nextScale in Hn. lra. }
  fold rect Px Py mouseX mouseY in Hst'.
  assert (Hscale : scale st' = nextScale) by (subst st'; rewrite Hst'; reflexivity).
  assert (Hox : Point.x (offset st')
                = mouseX - (mouseX - Point.x (offset st))
                           * (nextScale / scale st))
    by (subst st'; rewrite Hst'; reflexivity).
  assert (Hoy : Point.y (offset st')
                = mouseY - (mouseY - Point.y (offset st))
                           * (nextScale / scale st))
    by (subst st'; rewrite Hst'; reflexivity).
  assert (Hgx : (Px - DOMRect.left rect - Point.x (offset st')) / scale st'
                == (Px - DOMRect.left rect - Point.x (offset st)) / scale st).
  { rewrite Hscale, Hox. unfold mouseX. field. split; assumption. }
  assert (Hgy : (Py - DOMRect.top rect - Point.y (offset st')) / scale st'
                == (Py - DOMRect.top rect - Point.y (offset st)) / scale st).
  { rewrite Hscale, Hoy. unfold mouseY. field. split; assumption. }
  split; [exact Hgx |]. split; [exact Hgy |].
  split; [rewrite Hox, Hscale; reflexivity |].
  rewrite Hoy, Hscale. reflexivity.
Qed.

(** The scenario of a wheel event with [deltaY = -1000] at cursor (100, 100)
    from the initial view: the scale becomes 2 and the offset (-100, -100),
    so that the grid point 100 stays under the cursor. *)
Example wheel_zoom_in_scenario :
  let st' :=
    handleWheel (initialState (Some canvasAtOrigin))
      (WheelEvent.mk 100 100 (-1000)) in
  scale st' == 2 /\
  Point.x (offset st') == -100 /\ Point.y (offset st') == -100 /\
  (100 - 0 - Point.x (offset st')) / scale st' == 100.
Proof.
  cbv zeta. split; [reflexivity |]. split; [reflexivity |].
  split; reflexivity.
Qed.

(** ** Hit testing *)

(** The range test of the hit tester fails exactly on the cells of the grid. *)
Lemma range_check_false_iff (rows cols : Q) (row col : Z) :
  (row <? 0)%Z || (col <? 0)%Z
  || Qle_bool rows (inject_Z row) || Qle_bool cols (inject_Z col) = false
  <->
  (0 <= row)%Z /\ inject_Z row < rows /\ (0 <= col)%Z /\ inject_Z col < cols.
Proof.
  rewrite !orb_false_iff, !Z.ltb_ge.
  assert (Hq : forall a b : Q, Qle_bool a b = false <-> b < a).
  { intros a b. split.
    - intros Hf. apply Qnot_le_lt. intros Hle.
      apply Qle_bool_iff in Hle. congruence.
    - intros Hlt. destruct (Qle_bool a b) eqn:Hb; [| reflexivity].
      apply Qle_bool_iff in Hb. exfalso. exact (Qlt_not_le _ _ Hlt Hb). }
  rewrite !Hq. tauto.
Qed.


(** A cell returned by the hit tester lies in the grid. *)
Lemma getCellFromClientPoint_in_grid (props : CanvasGridProps) (st : State)
  (clientX clientY : Q) (c : Cell) :
  getCellFromClientPoint props st clientX clientY = Some c ->
  (0 <= Cell.row c)%Z /\ inject_Z (Cell.row c) < Props.rows props /\
  (0 <= Cell.col c)%Z /\ inject_Z (Cell.col c) < Props.cols props.
Proof.
  unfold getCellFromClientPoint.
  destruct (canvasRef st) as [canvas |]; [| discriminate]. cbv zeta.
  destruct (_ || _ || _ || _) eqn:Hrange; [discriminate |].
  intros [= <-]. cbn [Cell.row Cell.col].
  apply range_check_false_iff, Hrange.
Qed.

(** The double-precision hit tester at a few points: [Math.floor] on
    fractions, negative numbers, zeros, infinities and NaN. *)
Example F64_floor_examples :
  F64.floor 2.5 = 2%float /\ F64.floor (-0.5) = (-1)%float
  /\ F64.floor (-2) = (-2)%float /\ F64.floor 0.5 = 0%float
  /\ F64.floor (-0) = (-0)%float /\ F64.floor infinity = infinity
  /\ F64.floor neg_infinity = neg_infinity
  /\ PrimFloat.is_nan (F64.floor nan) = true.
Proof. vm_compute. repeat split; reflexivity. Qed.



(** ** Callbacks *)

(** What a pointer-move stores and reports: the hit test is taken on the
    state the handler was created in. *)
Lemma handlePointerMove_hover (props : CanvasGridProps) (st : State)
  (evt : PointerEvent) :
  let cell :=
    getCellFromClientPoint props st
      (PointerEvent.clientX evt) (PointerEvent.clientY evt) in
  hoveredCell (fst (handlePointerMove props st evt)) = cell /\
  snd (handlePointerMove props st evt)
  = optionalCall (Props.onHover props)
      (onHover (match cell with Some c => Cell.row c | None => -1 end)
               (match cell with Some c => Cell.col c | None => -1 end)).
Proof. intros cell. split; reflexivity. Qed.

Lemma handlePointerMove_offset (props : CanvasGridProps) (st : State)
  (evt : PointerEvent) :
  offset (fst (handlePointerMove props st evt))
  = if PanState.dragging (panState st)
       && (PanState.pointerId (panState st) =? PointerEvent.pointerId evt)%Z
    then
      Point.mk
        (Point.x (PanState.origin (panState st))
         + (PointerEvent.clientX evt - Point.x (PanState.start (panState st))))
        (Point.y (PanState.origin (panState st))
         + (PointerEvent.clientY evt - Point.y (PanState.start (panState st))))
    else offset st.
Proof.
  unfold handlePointerMove. cbn [fst].
  destruct (PanState.dragging (panState st)
            && (PanState.pointerId (panState st)
                =? PointerEvent.pointerId evt)%Z); reflexivity.
Qed.



(** ** Panning *)

Lemma handlePointerMove_panState (props : CanvasGridProps) (st : State)
  (evt : PointerEvent) :
  panState (fst (handlePointerMove props st evt)) = panState st /\
  pointerCapture (fst (handlePointerMove props st evt)) = pointerCapture st.
Proof.
  unfold handlePointerMove. cbn [fst].
  destruct (PanState.dragging (panState st)
            && (PanState.pointerId (panState st)
                =? PointerEvent.pointerId evt)%Z); split; reflexivity.
Qed.

(** C4. Pan translation: during an active drag with recorded origin O and
    client start S, a pointer-move of the same pointer at client point C sets
    the offset to O + (C - S): the offset moves by the displacement of the
    pointer, whatever the scale is, and the scale itself is not changed.
    O and S are the offset and the client point of the pointer-down. *)
Theorem pan_translation (props : CanvasGridProps) (st : State)
  (evt : PointerEvent) :
  PanState.dragging (panState st) = true ->
  PanState.pointerId (panState st) = PointerEvent.pointerId evt ->
  let O := PanState.origin (panState st) in
  let S := PanState.start (panState st) in
  let st' := fst (handlePointerMove props st evt) in
  offset st'
  = Point.mk (Point.x O + (PointerEvent.clientX evt - Point.x S))
             (Point.y O + (PointerEvent.clientY evt - Point.y S))
  /\
  Point.x (offset st') - Point.x O == PointerEvent.clientX evt - Point.x S
  /\
  Point.y (offset st') - Point.y O == PointerEvent.clientY evt - Point.y S
  /\
  (forall s : Q,
      offset (fst (handlePointerMove props (setScale s st) evt))
      = offset st')
  /\
  scale st' = scale st
  /\
  (forall (st0 : State) (down : PointerEvent),
      PointerEvent.pointerId down = PointerEvent.pointerId evt ->
      offset (fst (handlePointerMove props (handlePointerDown st0 down) evt))
      = Point.mk
          (Point.x (offset st0)
           + (PointerEvent.clientX evt - PointerEvent.clientX down))
          (Point.y (offset st0)
           + (PointerEvent.clientY evt - PointerEvent.clientY down))).
Proof.
  intros Hdrag Hid O S st'.
  assert (Hoff : offset st'
                 = Point.mk
                     (Point.x O + (PointerEvent.clientX evt - Point.x S))
                     (Point.y O + (PointerEvent.clientY evt - Point.y S))).
  { subst st'. rewrite handlePointerMove_offset.
    rewrite Hdrag, Hid, Z.eqb_refl. reflexivity. }
  split; [exact Hoff |].
  split; [rewrite Hoff; cbn [Point.x]; ring |].
  split; [rewrite Hoff; cbn [Point.y]; ring |].
  split.
  { intros s. rewrite Hoff, handlePointerMove_offset.
    cbn [panState setScale]. rewrite Hdrag, Hid, Z.eqb_refl. reflexivity. }
  split; [apply handlePointerMove_scale |].
  intros st0 down Hdown. rewrite handlePointerMove_offset.
  cbn [handlePointerDown panState setPointerCapture setPanState
       PanState.dragging PanState.pointerId PanState.start PanState.origin
       Point.x Point.y].
  rewrite Hdown, Z.eqb_refl. reflexivity.
Qed.

(** C10. During an active drag the cell stored by a pointer-move and passed
    to [onHover] is the hit test under the offset of the state before the
    event, while the same event replaces the offset: the reported hover is
    one event behind the pan.  In the grid of [App], dragging pointer 1 from
    (10, 10) to (50, 10) reports [(0, 1)], the cell under (50, 10) before
    the pan, although the panned view has cell [(0, 0)] there; repeating the
    move reports [(0, 0)]. *)
Theorem hover_lags_pan (props : CanvasGridProps) (st : State)
  (evt : PointerEvent) :
  PanState.dragging (panState st) = true ->
  PanState.pointerId (panState st) = PointerEvent.pointerId evt ->
  let st' := fst (handlePointerMove props st evt) in
  let cell :=
    getCellFromClientPoint props st
      (PointerEvent.clientX evt) (PointerEvent.clientY evt) in
  hoveredCell st' = cell
  /\
  snd (handlePointerMove props st evt)
  = optionalCall (Props.onHover props)
      (onHover (match cell with Some c => Cell.row c | None => -1 end)
               (match cell with Some c => Cell.col c | None => -1 end))
  /\
  offset st'
  = Point.mk
      (Point.x (PanState.origin (panState st))
       + (PointerEvent.clientX evt - Point.x (PanState.start (panState st))))
      (Point.y (PanState.origin (panState st))
       + (PointerEvent.clientY evt - Point.y (PanState.start (panState st))))
  /\
  (let st0 :=
     handlePointerDown (initialState (Some canvasAtOrigin))
       (PointerEvent.mk 1 10 10) in
   let move := PointerEvent.mk 1 50 10 in
   let st1 := fst (handlePointerMove App_props st0 move) in
   hoveredCell st1 = Some (Cell.mk 0 1) /\
   getCellFromClientPoint App_props st1 50 10 = Some (Cell.mk 0 0) /\
   snd (run App_props st0 [PointerMove move; PointerMove move])
   = [onHover 0 1; onHover 0 0]).
Proof.
  intros Hdrag Hid st' cell.
  destruct (handlePointerMove_hover props st evt) as [Hcell Hcalls].
  split; [exact Hcell |]. split; [exact Hcalls |]. split.
  - subst st'. rewrite handlePointerMove_offset.
    rewrite Hdrag, Hid, Z.eqb_refl. reflexivity.
  - vm_compute. repeat split; reflexivity.
Qed.

(** Events other than a pointer-down never start a drag. *)
Lemma dispatch_keeps_idle (props : CanvasGridProps) (st : State) (ev : Event) :
  (forall evt, ev <> PointerDown evt) ->
  PanState.dragging (panState st) = false ->
  PanState.dragging (panState (fst (dispatch props st ev))) = false.
Proof.
  intros Hev Hidle.
  destruct ev as [evt | evt | evt | | evt | evt | rect]; cbn [dispatch fst].
  - exfalso. exact (Hev evt eq_refl).
  - destruct (handlePointerMove_panState props st evt) as [-> _].
    exact Hidle.
  - unfold handlePointerUp.
    destruct (PanState.pointerId (panState st)
              =? PointerEvent.pointerId evt)%Z; [reflexivity | exact Hidle].
  - exact Hidle.
  - unfold handleClick.
    destruct (getCellFromClientPoint props st _ _); exact Hidle.
  - destruct (handleWheel_cases st evt) as [[-> _] | (canvas & _ & _ & ->)];
      exact Hidle.
  - exact Hidle.
Qed.

Lemma run_keeps_idle (props : CanvasGridProps) (evs : list Event) :
  forall st : State,
    Forall (fun ev => forall evt, ev <> PointerDown evt) evs ->
    PanState.dragging (panState st) = false ->
    PanState.dragging (panState (fst (run props st evs))) = false.
Proof.
  induction evs as [| ev evs IH]; intros st Hevs Hidle; cbn [run].
  - exact Hidle.
  - inversion Hevs as [| ? ? Hev Hrest]; subst.
    pose proof (dispatch_keeps_idle props st ev Hev Hidle) as Hstep.
    destruct (dispatch props st ev) as [st1 calls1]. cbn [fst] in Hstep.
    specialize (IH st1 Hrest Hstep).
    destruct (run props st1 evs) as [st2 calls2]. exact IH.
Qed.

(** C7, as the code has it.  A pointer-up of the pointer of the active
    gesture clears the dragging flag and releases the capture of that
    pointer; from then on, as long as no pointer-down occurs, the flag stays
    clear and no pointer-move changes the offset.  A pointer-leave changes
    neither the pan gesture nor the pointer capture. *)
Theorem pan_end_on_pointer_up (props : CanvasGridProps) (st : State)
  (evt : PointerEvent) :
  PanState.pointerId (panState st) = PointerEvent.pointerId evt ->
  let st' := handlePointerUp st evt in
  PanState.dragging (panState st') = false
  /\
  (PointerEvent.pointerId evt ∉ pointerCapture st')
  /\
  (forall evs : list Event,
      Forall (fun ev => forall e, ev <> PointerDown e) evs ->
      let st'' := fst (run props st' evs) in
      PanState.dragging (panState st'') = false /\
      forall move : PointerEvent,
        offset (fst (handlePointerMove props st'' move)) = offset st'')
  /\
  (forall st0 : State,
      panState (fst (handlePointerLeave props st0)) = panState st0 /\
      pointerCapture (fst (handlePointerLeave props st0))
      = pointerCapture st0).
Proof.
  intros Hid st'.
  assert (Hidle : PanState.dragging (panState st') = false).
  { subst st'. unfold handlePointerUp. rewrite Hid, Z.eqb_refl. reflexivity. }
  split; [exact Hidle |]. split.
  { subst st'. unfold handlePointerUp, releasePointerCapture.
    cbn [pointerCapture].
    intros [_ Hnot]%elem_of_difference.
    apply Hnot, elem_of_singleton. reflexivity. }
  split.
  - intros evs Hevs st''.
    assert (Hidle' : PanState.dragging (panState st'') = false)
      by (apply run_keeps_idle; assumption).
    split; [exact Hidle' |].
    intros move. rewrite handlePointerMove_offset, Hidle'. reflexivity.
  - intros st0. split; reflexivity.
Qed.

(** C7 fails for pointer-leave: after a pointer-down of pointer 1 at
    (10, 10), a pointer-leave keeps the gesture dragging and the pointer
    captured, and the next move of pointer 1 to (15, 15) pans the view. *)
Lemma pointer_leave_does_not_end_pan :
  let st0 :=
    handlePointerDown (initialState (Some canvasAtOrigin))
      (PointerEvent.mk 1 10 10) in
  let st1 := fst (handlePointerLeave App_props st0) in
  let st2 := fst (handlePointerMove App_props st1 (PointerEvent.mk 1 15 15)) in
  PanState.dragging (panState st1) = true /\
  (1%Z ∈ pointerCapture st1) /\
  Point.x (offset st1) == 0 /\ Point.y (offset st1) == 0 /\
  Point.x (offset st2) == 5 /\ Point.y (offset st2) == 5.
Proof.
  cbv zeta. split; [reflexivity |]. split.
  { cbn [handlePointerLeave fst setHoveredCell pointerCapture
         handlePointerDown setPointerCapture PointerEvent.pointerId].
    apply elem_of_union_l, elem_of_singleton. reflexivity. }
  repeat split; vm_compute; reflexivity.
Qed.

(** ** Rendering *)

(** The selection outline is the last thing drawn before [restore]. *)
Lemma renderEffect_ends_with_selection (props : CanvasGridProps)
  (devicePixelRatio : Q) (st : State) (canvas : Canvas) :
  canvasRef st = Some canvas ->
  Canvas.context2d canvas = true ->
  exists before : list Ctx.op,
    renderEffect props devicePixelRatio st
    = before ++ drawSelected props st ++ [Ctx.restore].
Proof.
  intros Hcanvas Hctx. unfold renderEffect. rewrite Hcanvas, Hctx.
  cbn [negb]. cbv zeta.
  eexists. rewrite !app_assoc. reflexivity.
Qed.

(** C9, as the code has it.  When a cell is selected the renderer ends by
    stroking, in the accent colour and with line width [2 / scale], the cell
    rectangle inset on each side by [(1 / scale) * 0.5]: half of the
    [1 / scale] width of a grid line, a quarter of the width of the stroke. *)
Theorem selection_outline_geometry (props : CanvasGridProps)
  (devicePixelRatio : Q) (st : State) (canvas : Canvas) (selected : Cell) :
  canvasRef st = Some canvas ->
  Canvas.context2d canvas = true ->
  selectedCell st = Some selected ->
  let cellSize := Props.cellSize props in
  let cellX := inject_Z (Cell.col selected) * cellSize in
  let cellY := inject_Z (Cell.row selected) * cellSize in
  let width := 2 / scale st in
  let inset := (1 / scale st) * 0.5 in
  exists (before : list Ctx.op) (x y w h : Q),
    renderEffect props devicePixelRatio st
    = before ++ [ Ctx.strokeStyle (Color "#ff9800"); Ctx.lineWidth width;
                  Ctx.strokeRect x y w h; Ctx.restore ]
    /\ x == cellX + inset
    /\ y == cellY + inset
    /\ x + w == cellX + cellSize - inset
    /\ y + h == cellY + cellSize - inset
    /\ inset == width / 4.
Proof.
  intros Hcanvas Hctx Hsel cellSize cellX cellY width inset.
  destruct (renderEffect_ends_with_selection props devicePixelRatio st canvas
              Hcanvas Hctx) as [before Hrender].
  unfold drawSelected in Hrender. rewrite Hsel in Hrender.
  exists before.
  exists (cellX + inset), (cellY + inset),
         (cellSize - 1 / scale st), (cellSize - 1 / scale st).
  split; [exact Hrender |].
  unfold inset, width, Qdiv.
  split; [reflexivity |]. split; [reflexivity |].
  split; [ring |]. split; [ring |].
  assert (Hquarter : / 4 == 1 # 4) by reflexivity.
  rewrite Hquarter. ring.
Qed.

(** C9 fails as stated: with cell (0, 0) of the grid of [App] selected at
    scale 1 the stroke has line width 2, and the stroked rectangle starts at
    0.5 and is 31 wide, not at 1 (half the line width) and 30 wide. *)
Lemma selection_outline_inset_is_not_half_line_width :
  let st :=
    setSelectedCell (Some (Cell.mk 0 0))
      (initialState (Some canvasAtOrigin)) in
  exists (before : list Ctx.op) (width x y w h : Q),
    renderEffect App_props 1 st
    = before ++ [ Ctx.strokeStyle (Color "#ff9800"); Ctx.lineWidth width;
                  Ctx.strokeRect x y w h; Ctx.restore ]
    /\ width == 2
    /\ x == 0.5 /\ y == 0.5 /\ w == 31 /\ h == 31
    /\ ~ x == inject_Z 0 * 32 + width / 2
    /\ ~ w == 32 - 2 * (width / 2).
Proof.
  cbv zeta.
  destruct (renderEffect_ends_with_selection App_props 1
              (setSelectedCell (Some (Cell.mk 0 0))
                 (initialState (Some canvasAtOrigin)))
              canvasAtOrigin eq_refl eq_refl) as [before Hrender].
  exists before. do 5 eexists.
  split; [exact Hrender |].
  split; [reflexivity |].
  split; [reflexivity |]. split; [reflexivity |].
  split; [reflexivity |]. split; [reflexivity |].
  split; vm_compute; congruence.
Qed.

(** ** The theorems at concrete inputs *)

(** Zooming in by [deltaY = -1000] at client point (110, 120) from the
    initial view doubles the scale and keeps the grid point under the
    cursor. *)
Lemma zoom_about_cursor_witness :
  let st := initialState (Some canvasBelowHeader) in
  let evt := WheelEvent.mk 110 120 (-1000) in
  let st' := handleWheel st evt in
  (110 - 10 - Point.x (offset st')) / scale st'
  == (110 - 10 - Point.x (offset st)) / scale st
  /\
  (120 - 20 - Point.y (offset st')) / scale st'
  == (120 - 20 - Point.y (offset st)) / scale st.
Proof.
  intros st evt st'.
  assert (Hbounds : MIN_SCALE <= scale st <= MAX_SCALE)
    by (split; by_evaluation).
  assert (Hchanged : ~ scale (handleWheel st evt) == scale st)
    by by_evaluation.
  pose proof (zoom_about_cursor st evt canvasBelowHeader
                eq_refl Hbounds Hchanged) as (Hx & Hy & _).
  split; [exact Hx | exact Hy].
Defined.

(** At the upper bound a zoom-in request changes nothing. *)
Lemma wheel_noop_when_scale_unchanged_witness :
  let st := setScale 4 (initialState (Some canvasAtOrigin)) in
  let evt := WheelEvent.mk 100 100 (-100) in
  handleWheel st evt = st.
Proof.
  intros st evt.
  assert (Hsame : clamp (scale st - WheelEvent.deltaY evt * 0.001) 0.25 4
                  == scale st)
    by (vm_compute; reflexivity).
  exact (proj1 (proj2 (wheel_noop_when_scale_unchanged st evt) Hsame)).
Defined.




(** Dragging pointer 7 from (10, 10) to (25, 4) at scale 2 moves the offset
    from (0, 0) by (15, -6). *)
Lemma pan_translation_witness :
  let st :=
    handlePointerDown (setScale 2 (initialState (Some canvasAtOrigin)))
      (PointerEvent.mk 7 10 10) in
  let st' :=
    fst (handlePointerMove App_props st (PointerEvent.mk 7 25 4)) in
  Point.x (offset st') - 0 == 25 - 10 /\
  Point.y (offset st') - 0 == 4 - 10.
Proof.
  intros st st'.
  pose proof (pan_translation App_props st (PointerEvent.mk 7 25 4)
                eq_refl eq_refl) as (_ & Hx & Hy & _).
  split; [exact Hx | exact Hy].
Defined.

(** The hover stored by the first move of a drag is the one of the view
    before the pan. *)
Lemma hover_lags_pan_witness :
  let st :=
    handlePointerDown (initialState (Some canvasAtOrigin))
      (PointerEvent.mk 1 10 10) in
  let move := PointerEvent.mk 1 50 10 in
  hoveredCell (fst (handlePointerMove App_props st move))
  = getCellFromClientPoint App_props st 50 10.
Proof.
  intros st move.
  exact (proj1 (hover_lags_pan App_props st move eq_refl eq_refl)).
Defined.

(** After the pointer-up of the dragging pointer, a pointer-leave and a
    further move of that pointer leave the view where it was. *)
Lemma pan_end_on_pointer_up_witness :
  let st :=
    handlePointerDown (initialState (Some canvasAtOrigin))
      (PointerEvent.mk 1 10 10) in
  let st' := handlePointerUp st (PointerEvent.mk 1 12 12) in
  let st'' :=
    fst (run App_props st'
           [PointerLeave; PointerMove (PointerEvent.mk 1 30 30)]) in
  PanState.dragging (panState st') = false /\
  (1%Z ∉ pointerCapture st') /\
  PanState.dragging (panState st'') = false /\
  offset (fst (handlePointerMove App_props st'' (PointerEvent.mk 1 40 40)))
  = offset st''.
Proof.
  intros st st' st''.
  pose proof (pan_end_on_pointer_up App_props st (PointerEvent.mk 1 12 12)
                eq_refl) as (Hidle & Hreleased & Hafter & _).
  split; [exact Hidle |]. split; [exact Hreleased |].
  assert (Hevs : Forall (fun ev => forall e, ev <> PointerDown e)
                   [PointerLeave; PointerMove (PointerEvent.mk 1 30 30)])
    by (repeat constructor; discriminate).
  destruct (Hafter _ Hevs) as [Hidle' Hmove].
  split; [exact Hidle' | apply Hmove].
Defined.

(** The outline of cell (3, 2) of the grid of [App] at scale 2. *)
Lemma selection_outline_geometry_witness :
  let st :=
    setScale 2
      (setSelectedCell (Some (Cell.mk 3 2))
         (initialState (Some canvasAtOrigin))) in
  exists (before : list Ctx.op) (x y w h : Q),
    renderEffect App_props 1 st
    = before ++ [ Ctx.strokeStyle (Color "#ff9800"); Ctx.lineWidth (2 / 2);
                  Ctx.strokeRect x y w h; Ctx.restore ]
    /\ x == 64 + 0.25 /\ y == 96 + 0.25
    /\ x + w == 96 - 0.25 /\ y + h == 128 - 0.25.
Proof.
  intros st.
  destruct (selection_outline_geometry App_props 1 st canvasAtOrigin
              (Cell.mk 3 2) eq_refl eq_refl eq_refl)
    as (before & x & y & w & h & Hrender & Hx & Hy & Hxw & Hyh & _).
  exists before, x, y, w, h.
  split; [exact Hrender |].
  split; [rewrite Hx; reflexivity |].
  split; [rewrite Hy; reflexivity |].
  split; [rewrite Hxw; reflexivity | rewrite Hyh; reflexivity].
Defined.

(** * Further properties of the component *)

(** ** Clamping and zoom steps *)

Lemma clamp_spec (value lo hi : Q) :
  lo <= hi ->
  (value < lo /\ clamp value lo hi == lo)
  \/ (lo <= value <= hi /\ clamp value lo hi == value)
  \/ (hi < value /\ clamp value lo hi == hi).
Proof.
  intros Hlohi. unfold clamp.
  destruct (Q.max_spec value lo) as [[Hlt Hmax] | [Hle Hmax]];
    destruct (Q.min_spec (Qmax value lo) hi) as [[Hlt' Hmin] | [Hle' Hmin]];
    rewrite Hmin; rewrite Hmax in *.
  - left. split; [exact Hlt | reflexivity].
  - left. split; [exact Hlt | lra].
  - right. left. split; [lra | reflexivity].
  - destruct (Qlt_le_dec hi value) as [Hhi | Hhi].
    + right. right. split; [exact Hhi | reflexivity].
    + right. left. split; [lra | lra].
Qed.

(** X1. [clamp] with ordered bounds returns the lower bound below the range,
    the upper bound above it and the value itself inside it, and clamping
    twice is clamping once; with the bounds the wrong way round it returns
    the upper bound whatever the value. *)
Theorem clamp_cases (value lo hi : Q) :
  (lo <= hi ->
   (value < lo -> clamp value lo hi == lo) /\
   (hi < value -> clamp value lo hi == hi) /\
   (lo <= value <= hi -> clamp value lo hi == value) /\
   clamp (clamp value lo hi) lo hi == clamp value lo hi)
  /\
  (hi < lo -> clamp value lo hi == hi).
Proof.
  split.
  - intros Hlohi.
    destruct (clamp_spec value lo hi Hlohi)
      as [[Hv Hc] | [[Hv Hc] | [Hv Hc]]];
      (split; [intros H; first [exact Hc | lra] |]);
      (split; [intros H; first [exact Hc | lra] |]);
      (split; [intros H; first [exact Hc | lra] |]).
    all: destruct (clamp_between value lo hi Hlohi) as [Hlo Hhi];
      destruct (clamp_spec (clamp value lo hi) lo hi Hlohi)
        as [[Hv' Hc'] | [[Hv' Hc'] | [Hv' Hc']]];
      first [exact Hc' | lra].
  - intros Hinv. unfold clamp.
    destruct (Q.min_spec (Qmax value lo) hi) as [[Hlt Hmin] | [Hle Hmin]];
      [| exact Hmin].
    pose proof (Q.le_max_r value lo). lra.
Qed.

Lemma handleWheel_canvasRef (st : State) (evt : WheelEvent) :
  canvasRef (handleWheel st evt) = canvasRef st.
Proof.
  destruct (handleWheel_cases st evt) as [[-> _] | (canvas & _ & _ & ->)];
    reflexivity.
Qed.

(** One wheel event, whether it changes the scale or not. *)
Lemma handleWheel_offset_formula (st : State) (evt : WheelEvent)
  (canvas : Canvas) :
  canvasRef st = Some canvas ->
  ~ scale st == 0 ->
  let st' := handleWheel st evt in
  let mouseX :=
    WheelEvent.clientX evt
    - DOMRect.left (Canvas.getBoundingClientRect canvas) in
  let mouseY :=
    WheelEvent.clientY evt
    - DOMRect.top (Canvas.getBoundingClientRect canvas) in
  Point.x (offset st')
  == mouseX - (mouseX - Point.x (offset st)) * (scale st' / scale st)
  /\
  Point.y (offset st')
  == mouseY - (mouseY - Point.y (offset st)) * (scale st' / scale st).
Proof.
  intros Hcanvas Hs st' mouseX mouseY. subst st'.
  destruct (handleWheel_cases st evt)
    as [[-> _] | (canvas' & Hcanvas' & _ & ->)].
  - split; field; exact Hs.
  - assert (canvas' = canvas) as -> by congruence.
    cbn [offset scale setScale setOffset Point.x Point.y].
    split; reflexivity.
Qed.

(** X2. Wheel direction: for a scale within bounds, a wheel event with
    [deltaY <= 0] never lowers the scale and one with [deltaY >= 0] never
    raises it. *)
Theorem wheel_direction (st : State) (evt : WheelEvent) :
  MIN_SCALE <= scale st <= MAX_SCALE ->
  (WheelEvent.deltaY evt <= 0 -> scale st <= scale (handleWheel st evt))
  /\
  (0 <= WheelEvent.deltaY evt -> scale (handleWheel st evt) <= scale st).
Proof.
  intros [Hlo Hhi].
  pose proof MIN_SCALE_le_MAX_SCALE as Hbounds.
  pose proof (clamp_spec (scale st - WheelEvent.deltaY evt * 0.001)
                MIN_SCALE MAX_SCALE Hbounds) as Hclamp.
  pose proof (handleWheel_cases st evt) as Hcases. cbv zeta in Hcases.
  set (next := clamp (scale st - WheelEvent.deltaY evt * 0.001)
                 MIN_SCALE MAX_SCALE) in *.
  split.
  - intros Hd.
    destruct Hcases as [[-> _] | (canvas & _ & _ & ->)]; [lra |].
    cbn [scale setScale].
    destruct Hclamp as [[Hv Hc] | [[Hv Hc] | [Hv Hc]]]; lra.
  - intros Hd.
    destruct Hcases as [[-> _] | (canvas & _ & _ & ->)]; [lra |].
    cbn [scale setScale].
    destruct Hclamp as [[Hv Hc] | [[Hv Hc] | [Hv Hc]]]; lra.
Qed.

(** The hit tester reads the view only up to equality of numbers. *)
Lemma getCellFromClientPoint_view_eq (props : CanvasGridProps)
  (st st' : State) (clientX clientY : Q) :
  canvasRef st' = canvasRef st ->
  scale st' == scale st ->
  Point.x (offset st') == Point.x (offset st) ->
  Point.y (offset st') == Point.y (offset st) ->
  getCellFromClientPoint props st' clientX clientY
  = getCellFromClientPoint props st clientX clientY.
Proof.
  intros Hcanvas Hs Hx Hy. unfold getCellFromClientPoint. rewrite Hcanvas.
  destruct (canvasRef st) as [canvas |]; [| reflexivity]. cbv zeta.
  set (rect := Canvas.getBoundingClientRect canvas).
  assert (Hcol :
    Qfloor ((clientX - DOMRect.left rect - Point.x (offset st')) / scale st'
            / Props.cellSize props)
    = Qfloor ((clientX - DOMRect.left rect - Point.x (offset st)) / scale st
              / Props.cellSize props))
    by (apply Qfloor_comp; rewrite Hs, Hx; reflexivity).
  assert (Hrow :
    Qfloor ((clientY - DOMRect.top rect - Point.y (offset st')) / scale st'
            / Props.cellSize props)
    = Qfloor ((clientY - DOMRect.top rect - Point.y (offset st)) / scale st
              / Props.cellSize props))
    by (apply Qfloor_comp; rewrite Hs, Hy; reflexivity).
  rewrite Hcol, Hrow. reflexivity.
Qed.

(** X3. Zoom steps at a fixed cursor compose: after any list of wheel events
    at one client point, with arbitrary deltas, the scale is within bounds
    and the offset is [m - (m - offset0) * (scale / scale0)] on each axis,
    where [m] is the cursor measured from the surface corner; the net effect
    depends on the final scale only, not on the steps taken. *)
Theorem zoom_steps_compose (props : CanvasGridProps) (canvas : Canvas)
  (clientX clientY : Q) (deltas : list Q) :
  forall st : State,
    canvasRef st = Some canvas ->
    MIN_SCALE <= scale st <= MAX_SCALE ->
    let st' :=
      fst (run props st
             (map (fun deltaY =>
                     Wheel (WheelEvent.mk clientX clientY deltaY))
                  deltas)) in
    let mouseX :=
      clientX - DOMRect.left (Canvas.getBoundingClientRect canvas) in
    let mouseY :=
      clientY - DOMRect.top (Canvas.getBoundingClientRect canvas) in
    MIN_SCALE <= scale st' <= MAX_SCALE
    /\
    Point.x (offset st')
    == mouseX - (mouseX - Point.x (offset st)) * (scale st' / scale st)
    /\
    Point.y (offset st')
    == mouseY - (mouseY - Point.y (offset st)) * (scale st' / scale st).
Proof.
  pose proof MIN_SCALE_pos as Hmin.
  induction deltas as [| deltaY deltas IH]; intros st Hcanvas Hst.
  - cbn. split; [exact Hst |]. split; field; lra.
  - cbn [map run dispatch].
    set (evt := WheelEvent.mk clientX clientY deltaY).
    pose proof (handleWheel_scale_bounds st evt Hst) as Hst1.
    assert (Hcanvas1 : canvasRef (handleWheel st evt) = Some canvas)
      by (rewrite handleWheel_canvasRef; exact Hcanvas).
    assert (Hs : ~ scale st == 0) by lra.
    destruct (handleWheel_offset_formula st evt canvas Hcanvas Hs)
      as [Hx1 Hy1].
    cbn [evt WheelEvent.clientX WheelEvent.clientY] in Hx1, Hy1.
    specialize (IH (handleWheel st evt) Hcanvas1 Hst1).
    cbv zeta in IH.
    destruct (run props (handleWheel st evt)
                (map (fun d => Wheel (WheelEvent.mk clientX clientY d))
                     deltas)) as [st2 calls2].
    cbn [fst] in *.
    destruct IH as (Hb & Hx & Hy).
    split; [exact Hb |].
    assert (Hs1 : ~ scale (handleWheel st evt) == 0) by lra.
    split.
    + rewrite Hx, Hx1. field. split; assumption.
    + rewrite Hy, Hy1. field. split; assumption.
Qed.

Lemma handleWheel_scale_value (st : State) (evt : WheelEvent)
  (canvas : Canvas) :
  canvasRef st = Some canvas ->
  scale (handleWheel st evt)
  == clamp (scale st - WheelEvent.deltaY evt * 0.001) MIN_SCALE MAX_SCALE.
Proof.
  intros Hcanvas.
  destruct (handleWheel_cases st evt)
    as [[-> [Hnone | Heq]] | (canvas' & _ & _ & ->)].
  - congruence.
  - symmetry. exact Heq.
  - reflexivity.
Qed.

(** X4. Zoom round trip: a wheel event with delta [d] followed by one with
    delta [-d] at the same client point, when neither step is clamped,
    brings the scale and the offset back to their values (in the doubles of
    the program, up to rounding). *)
Theorem zoom_in_out_round_trip (props : CanvasGridProps) (st : State)
  (canvas : Canvas) (clientX clientY deltaY : Q) :
  canvasRef st = Some canvas ->
  MIN_SCALE <= scale st <= MAX_SCALE ->
  MIN_SCALE <= scale st - deltaY * 0.001 <= MAX_SCALE ->
  let st' :=
    fst (run props st
           [ Wheel (WheelEvent.mk clientX clientY deltaY);
             Wheel (WheelEvent.mk clientX clientY (- deltaY)) ]) in
  scale st' == scale st
  /\ Point.x (offset st') == Point.x (offset st)
  /\ Point.y (offset st') == Point.y (offset st).
Proof.
  intros Hcanvas Hst Hmid. cbn [run dispatch fst app].
  pose proof MIN_SCALE_pos as Hmin.
  pose proof MIN_SCALE_le_MAX_SCALE as Hbounds.
  set (evt1 := WheelEvent.mk clientX clientY deltaY).
  set (evt2 := WheelEvent.mk clientX clientY (- deltaY)).
  set (st1 := handleWheel st evt1).
  set (st2 := handleWheel st1 evt2).
  cbv zeta.
  assert (Hcanvas1 : canvasRef st1 = Some canvas)
    by (subst st1; rewrite handleWheel_canvasRef; exact Hcanvas).
  assert (Hs1 : scale st1 == scale st - deltaY * 0.001).
  { pose proof (handleWheel_scale_value st evt1 canvas Hcanvas) as Hval.
    fold st1 in Hval. rewrite Hval. cbn [evt1 WheelEvent.deltaY].
    destruct (clamp_spec (scale st - deltaY * 0.001) MIN_SCALE MAX_SCALE
                Hbounds) as [[Hv Hc] | [[Hv Hc] | [Hv Hc]]]; lra. }
  assert (Hs2 : scale st2 == scale st).
  { pose proof (handleWheel_scale_value st1 evt2 canvas Hcanvas1) as Hval.
    fold st2 in Hval. rewrite Hval. cbn [evt2 WheelEvent.deltaY].
    destruct (clamp_spec (scale st1 - - deltaY * 0.001)
                MIN_SCALE MAX_SCALE Hbounds)
      as [[Hv Hc] | [[Hv Hc] | [Hv Hc]]]; lra. }
  assert (Hn0 : ~ scale st == 0) by lra.
  assert (Hn1 : ~ scale st1 == 0) by lra.
  destruct (handleWheel_offset_formula st evt1 canvas Hcanvas Hn0)
    as [Hx1 Hy1].
  destruct (handleWheel_offset_formula st1 evt2 canvas Hcanvas1 Hn1)
    as [Hx2 Hy2].
  fold st1 in Hx1, Hy1. fold st2 in Hx2, Hy2.
  cbn [evt1 evt2 WheelEvent.clientX WheelEvent.clientY] in Hx1, Hy1, Hx2, Hy2.
  assert (Hx : Point.x (offset st2) == Point.x (offset st)).
  { rewrite Hx2, Hx1, Hs2. field. split; assumption. }
  assert (Hy : Point.y (offset st2) == Point.y (offset st)).
  { rewrite Hy2, Hy1, Hs2. field. split; assumption. }
  split; [exact Hs2 |]. split; [exact Hx | exact Hy].
Qed.

(** ** Runs of events *)

(** A property kept by every admitted event is kept by a run of them. *)
Lemma run_invariant (props : CanvasGridProps) (admitted : Event -> Prop)
  (Inv : State -> Prop) :
  (forall st ev, admitted ev -> Inv st -> Inv (fst (dispatch props st ev))) ->
  forall (evs : list Event) (st : State),
    Forall admitted evs -> Inv st -> Inv (fst (run props st evs)).
Proof.
  intros Hstep. induction evs as [| ev evs IH]; intros st Hevs Hst.
  - exact Hst.
  - inversion Hevs as [| ? ? Hev Hrest]; subst. cbn [run].
    pose proof (Hstep st ev Hev Hst) as Hst1.
    destruct (dispatch props st ev) as [st1 calls1]. cbn [fst] in Hst1.
    specialize (IH st1 Hrest Hst1).
    destruct (run props st1 evs) as [st2 calls2]. exact IH.
Qed.

Lemma dispatch_canvasRef (props : CanvasGridProps) (st : State) (ev : Event) :
  canvasRef (fst (dispatch props st ev)) = canvasRef st.
Proof.
  destruct ev as [evt | evt | evt | | evt | evt | rect]; cbn [dispatch fst].
  - reflexivity.
  - unfold handlePointerMove. cbn [fst].
    destruct (PanState.dragging (panState st)
              && (PanState.pointerId (panState st)
                  =? PointerEvent.pointerId evt)%Z); reflexivity.
  - unfold handlePointerUp.
    destruct (PanState.pointerId (panState st)
              =? PointerEvent.pointerId evt)%Z; reflexivity.
  - reflexivity.
  - unfold handleClick.
    destruct (getCellFromClientPoint props st _ _); reflexivity.
  - apply handleWheel_canvasRef.
  - reflexivity.
Qed.

(** Events other than pointer-down and pointer-up leave the gesture record
    as it is. *)
Lemma dispatch_panState (props : CanvasGridProps) (st : State) (ev : Event) :
  (forall e, ev <> PointerDown e) -> (forall e, ev <> PointerUp e) ->
  panState (fst (dispatch props st ev)) = panState st.
Proof.
  intros Hdown Hup.
  destruct ev as [evt | evt | evt | | evt | evt | rect]; cbn [dispatch fst].
  - exfalso. exact (Hdown evt eq_refl).
  - apply handlePointerMove_panState.
  - exfalso. exact (Hup evt eq_refl).
  - reflexivity.
  - unfold handleClick.
    destruct (getCellFromClientPoint props st _ _); reflexivity.
  - destruct (handleWheel_cases st evt) as [[-> _] | (canvas & _ & _ & ->)];
      reflexivity.
  - reflexivity.
Qed.

Lemma dispatch_offset_frame (props : CanvasGridProps) (st : State)
  (ev : Event) :
  (forall e, ev <> PointerMove e) -> (forall e, ev <> Wheel e) ->
  offset (fst (dispatch props st ev)) = offset st.
Proof.
  intros Hmove Hwheel.
  destruct ev as [evt | evt | evt | | evt | evt | rect]; cbn [dispatch fst].
  - reflexivity.
  - exfalso. exact (Hmove evt eq_refl).
  - unfold handlePointerUp.
    destruct (PanState.pointerId (panState st)
              =? PointerEvent.pointerId evt)%Z; reflexivity.
  - reflexivity.
  - unfold handleClick.
    destruct (getCellFromClientPoint props st _ _); reflexivity.
  - exfalso. exact (Hwheel evt eq_refl).
  - reflexivity.
Qed.

Lemma dispatch_scale_frame (props : CanvasGridProps) (st : State)
  (ev : Event) :
  (forall e, ev <> Wheel e) ->
  scale (fst (dispatch props st ev)) = scale st.
Proof.
  intros Hwheel.
  destruct ev as [evt | evt | evt | | evt | evt | rect]; cbn [dispatch fst].
  - reflexivity.
  - apply handlePointerMove_scale.
  - apply handlePointerUp_scale.
  - reflexivity.
  - apply handleClick_scale.
  - exfalso. exact (Hwheel evt eq_refl).
  - reflexivity.
Qed.

(** ** Panning, continued *)

(** X5. The view moves only by panning or zooming: over any run of events
    without pointer-moves and wheel events (presses, releases, leaves,
    clicks, resizes) the scale and the offset stay what they were; and a
    pointer-move pans only for the pointer of an active drag. *)
Theorem view_moves_only_by_pan_or_zoom (props : CanvasGridProps)
  (st : State) (evs : list Event) :
  Forall (fun ev => (forall e, ev <> PointerMove e)
                    /\ (forall e, ev <> Wheel e)) evs ->
  scale (fst (run props st evs)) = scale st
  /\ offset (fst (run props st evs)) = offset st
  /\ forall (st0 : State) (move : PointerEvent),
       PanState.dragging (panState st0) = false
       \/ PanState.pointerId (panState st0) <> PointerEvent.pointerId move ->
       offset (fst (handlePointerMove props st0 move)) = offset st0.
Proof.
  intros Hevs. split; [| split].
  - apply (run_invariant props
             (fun ev => (forall e, ev <> PointerMove e)
                        /\ (forall e, ev <> Wheel e))
             (fun s => scale s = scale st)); [| exact Hevs | reflexivity].
    intros s ev [_ Hwheel] Hs.
    rewrite dispatch_scale_frame; assumption.
  - apply (run_invariant props
             (fun ev => (forall e, ev <> PointerMove e)
                        /\ (forall e, ev <> Wheel e))
             (fun s => offset s = offset st)); [| exact Hevs | reflexivity].
    intros s ev [Hmove Hwheel] Hs.
    rewrite dispatch_offset_frame; assumption.
  - intros st0 move Hidle. rewrite handlePointerMove_offset.
    destruct Hidle as [-> | Hid]; [reflexivity |].
    apply Z.eqb_neq in Hid. rewrite Hid, andb_false_r. reflexivity.
Qed.

(** X6. A drag is absolute: after a pointer-down at S with offset O, and
    whatever happens before the next pointer-down or pointer-up (moves of
    any pointer, wheel zooms, clicks, leaves, resizes), a move of the
    pressed pointer to C sets the offset to O + (C - S).  The moves do not
    accumulate, a zoom in between does not shift the result, and coming back
    to S restores O. *)
Theorem drag_offset_is_absolute (props : CanvasGridProps) (st0 : State)
  (down move : PointerEvent) (evs : list Event) :
  Forall (fun ev => (forall e, ev <> PointerDown e)
                    /\ (forall e, ev <> PointerUp e)) evs ->
  PointerEvent.pointerId move = PointerEvent.pointerId down ->
  let st1 := handlePointerDown st0 down in
  let st2 := fst (run props st1 evs) in
  let st3 := fst (handlePointerMove props st2 move) in
  offset st3
  = Point.mk
      (Point.x (offset st0)
       + (PointerEvent.clientX move - PointerEvent.clientX down))
      (Point.y (offset st0)
       + (PointerEvent.clientY move - PointerEvent.clientY down))
  /\
  (PointerEvent.clientX move == PointerEvent.clientX down ->
   PointerEvent.clientY move == PointerEvent.clientY down ->
   Point.x (offset st3) == Point.x (offset st0) /\
   Point.y (offset st3) == Point.y (offset st0)).
Proof.
  intros Hevs Hid st1 st2 st3.
  assert (Hps : panState st2 = panState st1).
  { subst st2.
    apply (run_invariant props
             (fun ev => (forall e, ev <> PointerDown e)
                        /\ (forall e, ev <> PointerUp e))
             (fun s => panState s = panState st1));
      [| exact Hevs | reflexivity].
    intros s ev [Hdown Hup] Hs. rewrite dispatch_panState; assumption. }
  assert (Hoff : offset st3
                 = Point.mk
                     (Point.x (offset st0)
                      + (PointerEvent.clientX move
                         - PointerEvent.clientX down))
                     (Point.y (offset st0)
                      + (PointerEvent.clientY move
                         - PointerEvent.clientY down))).
  { subst st3. rewrite handlePointerMove_offset, Hps. subst st1.
    cbn [handlePointerDown panState setPointerCapture setPanState
         PanState.dragging PanState.pointerId PanState.start PanState.origin
         Point.x Point.y].
    rewrite Hid, Z.eqb_refl. reflexivity. }
  split; [exact Hoff |].
  intros Hx Hy. rewrite Hoff. cbn [Point.x Point.y].
  split; [rewrite Hx | rewrite Hy]; ring.
Qed.

(** X7. What is grabbed stays under the pointer: after a pointer-down at S
    and any events other than pointer-down, pointer-up and wheel, once the
    pressed pointer has moved to C the scale is unchanged and the grid-space
    point under C is the grid-space point that was under S when the drag
    started (in the doubles of the program, up to rounding). *)
Theorem grabbed_point_follows_pointer (props : CanvasGridProps)
  (st0 : State) (rect : DOMRect) (down move : PointerEvent)
  (evs : list Event) :
  Forall (fun ev => (forall e, ev <> PointerDown e)
                    /\ (forall e, ev <> PointerUp e)
                    /\ (forall e, ev <> Wheel e)) evs ->
  PointerEvent.pointerId move = PointerEvent.pointerId down ->
  let st1 := handlePointerDown st0 down in
  let st2 := fst (run props st1 evs) in
  let st3 := fst (handlePointerMove props st2 move) in
  scale st3 = scale st0
  /\
  (PointerEvent.clientX move - DOMRect.left rect - Point.x (offset st3))
  / scale st3
  == (PointerEvent.clientX down - DOMRect.left rect - Point.x (offset st0))
     / scale st0
  /\
  (PointerEvent.clientY move - DOMRect.top rect - Point.y (offset st3))
  / scale st3
  == (PointerEvent.clientY down - DOMRect.top rect - Point.y (offset st0))
     / scale st0.
Proof.
  intros Hevs Hid st1 st2 st3.
  assert (Hps : panState st2 = panState st1).
  { subst st2.
    apply (run_invariant props
             (fun ev => (forall e, ev <> PointerDown e)
                        /\ (forall e, ev <> PointerUp e)
                        /\ (forall e, ev <> Wheel e))
             (fun s => panState s = panState st1));
      [| exact Hevs | reflexivity].
    intros s ev (Hdown & Hup & _) Hs. rewrite dispatch_panState; assumption. }
  assert (Hsc : scale st3 = scale st0).
  { subst st3. rewrite handlePointerMove_scale. subst st2.
    apply (run_invariant props
             (fun ev => (forall e, ev <> PointerDown e)
                        /\ (forall e, ev <> PointerUp e)
                        /\ (forall e, ev <> Wheel e))
             (fun s => scale s = scale st0));
      [| exact Hevs | reflexivity].
    intros s ev (_ & _ & Hwheel) Hs.
    rewrite dispatch_scale_frame; assumption. }
  assert (Hoff : offset st3
                 = Point.mk
                     (Point.x (offset st0)
                      + (PointerEvent.clientX move
                         - PointerEvent.clientX down))
                     (Point.y (offset st0)
                      + (PointerEvent.clientY move
                         - PointerEvent.clientY down))).
  { subst st3. rewrite handlePointerMove_offset, Hps. subst st1.
    cbn [handlePointerDown panState setPointerCapture setPanState
         PanState.dragging PanState.pointerId PanState.start PanState.origin
         Point.x Point.y].
    rewrite Hid, Z.eqb_refl. reflexivity. }
  split; [exact Hsc |].
  rewrite Hsc, Hoff. cbn [Point.x Point.y].
  split; apply Qdiv_comp; first [ring | reflexivity].
Qed.

(** X8. The last pointer wins: after a second pointer-down by another
    pointer, moves of the first pointer no longer pan, the second pointer
    pans from the offset and the client point of its own press, and the
    release of the first pointer frees its capture but does not end the
    drag. *)
Theorem last_pointer_wins (props : CanvasGridProps) (st : State)
  (down1 down2 : PointerEvent) :
  PointerEvent.pointerId down1 <> PointerEvent.pointerId down2 ->
  let st2 := handlePointerDown (handlePointerDown st down1) down2 in
  (forall move : PointerEvent,
      PointerEvent.pointerId move = PointerEvent.pointerId down1 ->
      offset (fst (handlePointerMove props st2 move)) = offset st)
  /\
  (forall move : PointerEvent,
      PointerEvent.pointerId move = PointerEvent.pointerId down2 ->
      offset (fst (handlePointerMove props st2 move))
      = Point.mk
          (Point.x (offset st)
           + (PointerEvent.clientX move - PointerEvent.clientX down2))
          (Point.y (offset st)
           + (PointerEvent.clientY move - PointerEvent.clientY down2)))
  /\
  (forall up : PointerEvent,
      PointerEvent.pointerId up = PointerEvent.pointerId down1 ->
      PanState.dragging (panState (handlePointerUp st2 up)) = true /\
      (PointerEvent.pointerId down1 ∉ pointerCapture (handlePointerUp st2 up))
      /\
      (PointerEvent.pointerId down2 ∈ pointerCapture (handlePointerUp st2 up))).
Proof.
  intros Hne st2. split; [| split].
  - intros move Hid. rewrite handlePointerMove_offset. subst st2.
    cbn [handlePointerDown panState setPointerCapture setPanState
         PanState.dragging PanState.pointerId offset].
    rewrite Hid.
    assert (Hneq : (PointerEvent.pointerId down2
                    =? PointerEvent.pointerId down1)%Z = false)
      by (apply Z.eqb_neq; congruence).
    rewrite Hneq. reflexivity.
  - intros move Hid. rewrite handlePointerMove_offset. subst st2.
    cbn [handlePointerDown panState setPointerCapture setPanState
         PanState.dragging PanState.pointerId PanState.start PanState.origin
         offset Point.x Point.y].
    rewrite Hid, Z.eqb_refl. reflexivity.
  - intros up Hid. subst st2. unfold handlePointerUp.
    cbn [handlePointerDown panState setPointerCapture setPanState
         PanState.dragging PanState.pointerId].
    rewrite Hid.
    assert (Hneq : (PointerEvent.pointerId down2
                    =? PointerEvent.pointerId down1)%Z = false)
      by (apply Z.eqb_neq; congruence).
    rewrite Hneq.
    cbn [releasePointerCapture panState pointerCapture PanState.dragging].
    split; [reflexivity |]. split.
    + intros [_ Hnot]%elem_of_difference.
      apply Hnot, elem_of_singleton. reflexivity.
    + apply elem_of_difference. split.
      * apply elem_of_union_l, elem_of_singleton. reflexivity.
      * intros Hin%elem_of_singleton. congruence.
Qed.

(** X9. A tap selects without moving the view: a pointer-down, the pointer-up
    of the same pointer and the click that follows leave the scale and the
    offset unchanged and the gesture idle; the click selects the cell under
    it, calling [onSelect], or, outside the grid, keeps the selection and
    calls nothing. *)
Theorem tap_selects_without_panning (props : CanvasGridProps) (st : State)
  (down up : PointerEvent) (click : MouseEvent) :
  PointerEvent.pointerId up = PointerEvent.pointerId down ->
  let result := run props st [PointerDown down; PointerUp up; Click click] in
  let hit :=
    getCellFromClientPoint props st
      (MouseEvent.clientX click) (MouseEvent.clientY click) in
  scale (fst result) = scale st
  /\ offset (fst result) = offset st
  /\ PanState.dragging (panState (fst result)) = false
  /\ selectedCell (fst result)
     = match hit with Some c => Some c | None => selectedCell st end
  /\ snd result
     = match hit with
       | Some c =>
           optionalCall (Props.onSelect props)
             (onSelect (Cell.row c) (Cell.col c))
       | None => []
       end.
Proof.
  intros Hid result hit. subst result. cbn [run dispatch].
  set (st2 := handlePointerUp (handlePointerDown st down) up).
  assert (Hview : scale st2 = scale st /\ offset st2 = offset st
                  /\ canvasRef st2 = canvasRef st
                  /\ selectedCell st2 = selectedCell st
                  /\ PanState.dragging (panState st2) = false).
  { subst st2. unfold handlePointerUp.
    cbn [handlePointerDown panState setPointerCapture setPanState
         PanState.pointerId].
    rewrite Hid, Z.eqb_refl. repeat split. }
  destruct Hview as (Hs & Ho & Hc & Hsel & Hidle).
  assert (Hhit : getCellFromClientPoint props st2
                   (MouseEvent.clientX click) (MouseEvent.clientY click)
                 = hit).
  { apply getCellFromClientPoint_view_eq;
      [exact Hc | rewrite Hs | rewrite Ho | rewrite Ho]; reflexivity. }
  unfold handleClick. rewrite Hhit.
  destruct hit as [c |]; cbn [fst snd app setSelectedCell scale offset
                               panState selectedCell];
    rewrite ?app_nil_r; repeat split; assumption.
Qed.

(** X10. While a drag is active its pointer is captured: after any events
    from the first render, if the gesture is dragging then the pointer id it
    records is in the capture set of the canvas. *)
Theorem dragging_pointer_is_captured (props : CanvasGridProps)
  (canvas : option Canvas) (evs : list Event) :
  let st := fst (run props (initialState canvas) evs) in
  PanState.dragging (panState st) = true ->
  PanState.pointerId (panState st) ∈ pointerCapture st.
Proof.
  cbv zeta.
  apply (run_invariant props (fun _ => True)
           (fun s => PanState.dragging (panState s) = true ->
                     PanState.pointerId (panState s) ∈ pointerCapture s)).
  - intros st ev _ Hinv.
    destruct ev as [evt | evt | evt | | evt | evt | rect]; cbn [dispatch fst].
    + intros _.
      cbn [handlePointerDown panState setPointerCapture setPanState
           PanState.pointerId pointerCapture].
      apply elem_of_union_l, elem_of_singleton. reflexivity.
    + destruct (handlePointerMove_panState props st evt) as [-> ->].
      exact Hinv.
    + unfold handlePointerUp.
      destruct (PanState.pointerId (panState st)
                =? PointerEvent.pointerId evt)%Z eqn:Hid.
      * cbn [releasePointerCapture setPanState panState PanState.dragging].
        discriminate.
      * cbn [releasePointerCapture panState pointerCapture].
        intros Hdrag. apply elem_of_difference. split; [exact (Hinv Hdrag) |].
        intros Hin%elem_of_singleton. apply Z.eqb_neq in Hid. congruence.
    + exact Hinv.
    + unfold handleClick.
      destruct (getCellFromClientPoint props st _ _); exact Hinv.
    + destruct (handleWheel_cases st evt)
        as [[-> _] | (canvas' & _ & _ & ->)]; exact Hinv.
    + exact Hinv.
  - apply Forall_forall. intros; exact I.
  - cbn. discriminate.
Qed.

(** ** Cells *)

(** What each event does to the two cells. *)
Lemma dispatch_cells (props : CanvasGridProps)
  (st : State) (ev : Event) :
  selectedCell (fst (dispatch props st ev))
  = match ev with
    | Click click =>
        match getCellFromClientPoint props st
                (MouseEvent.clientX click) (MouseEvent.clientY click) with
        | Some c => Some c
        | None => selectedCell st
        end
    | _ => selectedCell st
    end
  /\
  hoveredCell (fst (dispatch props st ev))
  = match ev with
    | PointerMove move =>
        getCellFromClientPoint props st
          (PointerEvent.clientX move) (PointerEvent.clientY move)
    | PointerLeave => None
    | _ => hoveredCell st
    end.
Proof.
  destruct ev as [evt | evt | evt | | evt | evt | rect]; cbn [dispatch fst].
  - split; reflexivity.
  - unfold handlePointerMove. cbn [fst].
    destruct (PanState.dragging (panState st)
              && (PanState.pointerId (panState st)
                  =? PointerEvent.pointerId evt)%Z); split; reflexivity.
  - unfold handlePointerUp.
    destruct (PanState.pointerId (panState st)
              =? PointerEvent.pointerId evt)%Z; split; reflexivity.
  - split; reflexivity.
  - unfold handleClick.
    destruct (getCellFromClientPoint props st _ _); split; reflexivity.
  - destruct (handleWheel_cases st evt) as [[-> _] | (canvas & _ & _ & ->)];
      split; reflexivity.
  - split; reflexivity.
Qed.

(** X11. The selection changes only by a click on a cell: a click that hits
    a cell selects it and a click outside the grid keeps the previous
    selection; a run of events without clicks leaves the selection as it
    was, and a run without pointer-moves and pointer-leaves leaves the
    hovered cell as it was. *)
Theorem selection_changes_only_by_click (props : CanvasGridProps)
  (st : State) (click : MouseEvent) (evs : list Event) :
  selectedCell (fst (handleClick props st click))
  = match getCellFromClientPoint props st
            (MouseEvent.clientX click) (MouseEvent.clientY click) with
    | Some c => Some c
    | None => selectedCell st
    end
  /\
  (Forall (fun ev => forall e, ev <> Click e) evs ->
   selectedCell (fst (run props st evs)) = selectedCell st)
  /\
  (Forall (fun ev => (forall e, ev <> PointerMove e) /\ ev <> PointerLeave)
     evs ->
   hoveredCell (fst (run props st evs)) = hoveredCell st).
Proof.
  split; [| split].
  - exact (proj1 (dispatch_cells props st (Click click))).
  - intros Hevs.
    apply (run_invariant props (fun ev => forall e, ev <> Click e)
             (fun s => selectedCell s = selectedCell st));
      [| exact Hevs | reflexivity].
    intros s ev Hev Hs. destruct (dispatch_cells props s ev) as [-> _].
    destruct ev; try exact Hs. exfalso. exact (Hev _ eq_refl).
  - intros Hevs.
    apply (run_invariant props
             (fun ev => (forall e, ev <> PointerMove e) /\ ev <> PointerLeave)
             (fun s => hoveredCell s = hoveredCell st));
      [| exact Hevs | reflexivity].
    intros s ev [Hmove Hleave] Hs.
    destruct (dispatch_cells props s ev) as [_ ->].
    destruct ev; try exact Hs.
    + exfalso. exact (Hmove _ eq_refl).
    + exfalso. exact (Hleave eq_refl).
Qed.

(** X12. Cells stay in the grid: for a positive cell size, after the mount
    effect and any events the hovered cell and the selected cell, when there
    is one, have a row in [0, rows) and a column in [0, cols). *)
Theorem cells_stay_in_grid (props : CanvasGridProps)
  (canvas : option Canvas) (container : option Container)
  (evs : list Event) :
  0 < Props.cellSize props ->
  let st :=
    fst (run props (mountEffect container (initialState canvas)) evs) in
  let inGrid (cell : option Cell) :=
    match cell with
    | Some c =>
        (0 <= Cell.row c)%Z /\ inject_Z (Cell.row c) < Props.rows props /\
        (0 <= Cell.col c)%Z /\ inject_Z (Cell.col c) < Props.cols props
    | None => True
    end in
  inGrid (hoveredCell st) /\ inGrid (selectedCell st).
Proof.
  intros _. cbv zeta.
  apply (run_invariant props (fun _ => True)
           (fun s =>
              match hoveredCell s with
              | Some c =>
                  (0 <= Cell.row c)%Z /\
                  inject_Z (Cell.row c) < Props.rows props /\
                  (0 <= Cell.col c)%Z /\
                  inject_Z (Cell.col c) < Props.cols props
              | None => True
              end
              /\
              match selectedCell s with
              | Some c =>
                  (0 <= Cell.row c)%Z /\
                  inject_Z (Cell.row c) < Props.rows props /\
                  (0 <= Cell.col c)%Z /\
                  inject_Z (Cell.col c) < Props.cols props
              | None => True
              end)).
  - intros st ev _ [Hhov Hsel].
    assert (Hhit : forall x y,
      match getCellFromClientPoint props st x y with
      | Some c =>
          (0 <= Cell.row c)%Z /\ inject_Z (Cell.row c) < Props.rows props /\
          (0 <= Cell.col c)%Z /\ inject_Z (Cell.col c) < Props.cols props
      | None => True
      end).
    { intros x y.
      destruct (getCellFromClientPoint props st x y) as [c |] eqn:Hc;
        [| exact I].
      exact (getCellFromClientPoint_in_grid props st x y c Hc). }
    destruct (dispatch_cells props st ev) as [-> ->].
    destruct ev as [evt | evt | evt | | evt | evt | rect].
    + split; assumption.
    + split; [apply Hhit | exact Hsel].
    + split; assumption.
    + split; [exact I | exact Hsel].
    + split; [exact Hhov |].
      pose proof (Hhit (MouseEvent.clientX evt) (MouseEvent.clientY evt))
        as Hc.
      destruct (getCellFromClientPoint props st _ _); assumption.
    + split; assumption.
    + split; assumption.
  - apply Forall_forall. intros; exact I.
  - destruct container; cbn; split; exact I.
Qed.

(** ** Surface size *)

(** The state after a run of two lists of events is the state after the
    second list, run from the state after the first. *)
Lemma run_app_state (props : CanvasGridProps) (evs1 evs2 : list Event) :
  forall st : State,
    fst (run props st (evs1 ++ evs2))
    = fst (run props (fst (run props st evs1)) evs2).
Proof.
  induction evs1 as [| ev evs1 IH]; intros st; [reflexivity |].
  cbn [app run].
  destruct (dispatch props st ev) as [st1 calls1].
  specialize (IH st1).
  destruct (run props st1 (evs1 ++ evs2)) as [st2 calls2].
  destruct (run props st1 evs1) as [st3 calls3].
  cbn [fst] in *. exact IH.
Qed.

(** X13. The observed size has a floor of 200 once a resize notification has
    been handled: the notification stores the content size with each
    dimension raised to at least 200 (and kept when already that large);
    no other event changes the stored size; so from any state a size of at
    least 200 x 200 is kept by every run, a run that contains a resize
    notification ends with a size of at least 200 x 200, and a run without
    one ends with the size it started from, which after the mount effect can
    be smaller. *)
Theorem surface_size_floor_after_resize (props : CanvasGridProps)
  (st : State) :
  (forall contentRect : Size,
      let size := canvasSize (handleResize st contentRect) in
      (200 <= Size.width contentRect ->
       Size.width size == Size.width contentRect) /\
      (Size.width contentRect <= 200 -> Size.width size == 200) /\
      (200 <= Size.height contentRect ->
       Size.height size == Size.height contentRect) /\
      (Size.height contentRect <= 200 -> Size.height size == 200))
  /\
  (forall evs : list Event,
      200 <= Size.width (canvasSize st) ->
      200 <= Size.height (canvasSize st) ->
      200 <= Size.width (canvasSize (fst (run props st evs))) /\
      200 <= Size.height (canvasSize (fst (run props st evs))))
  /\
  (forall (before after : list Event) (contentRect : Size),
      let st' := fst (run props st (before ++ Resize contentRect :: after)) in
      200 <= Size.width (canvasSize st') /\
      200 <= Size.height (canvasSize st'))
  /\
  (forall evs : list Event,
      Forall (fun ev => forall rect, ev <> Resize rect) evs ->
      canvasSize (fst (run props st evs)) = canvasSize st).
Proof.
  assert (Hframe : forall (s : State) (ev : Event),
             (forall rect, ev <> Resize rect) ->
             canvasSize (fst (dispatch props s ev)) = canvasSize s).
  { intros s ev Hev.
    destruct ev as [evt | evt | evt | | evt | evt | rect]; cbn [dispatch fst].
    - reflexivity.
    - unfold handlePointerMove. cbn [fst].
      destruct (PanState.dragging (panState s)
                && (PanState.pointerId (panState s)
                    =? PointerEvent.pointerId evt)%Z); reflexivity.
    - unfold handlePointerUp.
      destruct (PanState.pointerId (panState s)
                =? PointerEvent.pointerId evt)%Z; reflexivity.
    - reflexivity.
    - unfold handleClick.
      destruct (getCellFromClientPoint props s _ _); reflexivity.
    - destruct (handleWheel_cases s evt)
        as [[-> _] | (canvas' & _ & _ & ->)]; reflexivity.
    - exfalso. exact (Hev rect eq_refl). }
  assert (Hkeep : forall (evs : list Event) (s : State),
             200 <= Size.width (canvasSize s)
             /\ 200 <= Size.height (canvasSize s) ->
             200 <= Size.width (canvasSize (fst (run props s evs)))
             /\ 200 <= Size.height (canvasSize (fst (run props s evs)))).
  { intros evs s Hs.
    apply (run_invariant props (fun _ => True)
             (fun s' => 200 <= Size.width (canvasSize s')
                        /\ 200 <= Size.height (canvasSize s')));
      [| apply Forall_forall; intros; exact I | exact Hs].
    intros s' ev _ Hinv.
    destruct ev as [evt | evt | evt | | evt | evt | rect];
      try (rewrite Hframe; [exact Hinv | discriminate]).
    cbn [dispatch fst handleResize setCanvasSize canvasSize
         Size.width Size.height].
    split; apply Q.le_max_r. }
  split; [| split; [| split]].
  - intros contentRect size. subst size.
    cbn [handleResize setCanvasSize canvasSize Size.width Size.height].
    repeat split; intros H.
    + apply Q.max_l, H.
    + apply Q.max_r, H.
    + apply Q.max_l, H.
    + apply Q.max_r, H.
  - intros evs Hw Hh. apply Hkeep. split; assumption.
  - intros before after contentRect st'. subst st'.
    rewrite run_app_state. cbn [run dispatch].
    set (s1 := fst (run props st before)).
    pose proof (Hkeep after (handleResize s1 contentRect)) as Hafter.
    destruct (run props (handleResize s1 contentRect) after)
      as [s2 calls2].
    cbn [fst] in *. apply Hafter.
    cbn [handleResize setCanvasSize canvasSize Size.width Size.height].
    split; apply Q.le_max_r.
  - intros evs Hevs.
    apply (run_invariant props (fun ev => forall rect, ev <> Resize rect)
             (fun s' => canvasSize s' = canvasSize st));
      [| exact Hevs | reflexivity].
    intros s' ev Hev Hs'. rewrite Hframe; assumption.
Qed.

(** X14. The mount effect never leaves an empty surface: for a container
    with non-negative client sizes the stored width and height are positive;
    a zero dimension is replaced by 1200 (width) or 800 (height) and any
    other is taken as it is, without the floor of 200; the rest of the state
    is untouched, and without a container nothing happens. *)
Theorem mount_size_is_positive (container : Container) (st : State) :
  0 <= Container.clientWidth container ->
  0 <= Container.clientHeight container ->
  let st' := mountEffect (Some container) st in
  0 < Size.width (canvasSize st')
  /\ 0 < Size.height (canvasSize st')
  /\ (Container.clientWidth container == 0 ->
      Size.width (canvasSize st') = 1200)
  /\ (~ Container.clientWidth container == 0 ->
      Size.width (canvasSize st') = Container.clientWidth container)
  /\ (Container.clientHeight container == 0 ->
      Size.height (canvasSize st') = 800)
  /\ (~ Container.clientHeight container == 0 ->
      Size.height (canvasSize st') = Container.clientHeight container)
  /\ st' = setCanvasSize (canvasSize st') st
  /\ mountEffect None st = st.
Proof.
  intros Hw Hh st'. subst st'.
  cbn [mountEffect setCanvasSize canvasSize Size.width Size.height].
  destruct (Qeq_bool (Container.clientWidth container) 0) eqn:Ew;
    [apply Qeq_bool_eq in Ew | apply Qeq_bool_neq in Ew];
    (destruct (Qeq_bool (Container.clientHeight container) 0) eqn:Eh;
     [apply Qeq_bool_eq in Eh | apply Qeq_bool_neq in Eh]).
  all: split; [first [reflexivity | lra] |].
  all: split; [first [reflexivity | lra] |].
  all: split; [intros H; first [reflexivity | contradiction] |].
  all: split; [intros H; first [reflexivity | contradiction] |].
  all: split; [intros H; first [reflexivity | contradiction] |].
  all: split; [intros H; first [reflexivity | contradiction] |].
  all: split; reflexivity.
Qed.

(** No handler reads the stored surface size: from two states that differ
    at most in it, an event leads to two such states and to the same calls. *)
Lemma dispatch_sameButSize (props : CanvasGridProps) (s s' : State)
  (ev : Event) :
  sameButSize s s' ->
  sameButSize (fst (dispatch props s ev)) (fst (dispatch props s' ev))
  /\ snd (dispatch props s' ev) = snd (dispatch props s ev).
Proof.
  intros (Hsc & Hoff & Hhov & Hsel & Hpan & Hcv & Hcap).
  destruct s as [sc off hov sel size pan cv cap].
  destruct s' as [sc' off' hov' sel' size' pan' cv' cap'].
  cbn in Hsc, Hoff, Hhov, Hsel, Hpan, Hcv, Hcap. subst.
  unfold sameButSize.
  destruct ev as [evt | evt | evt | | evt | evt | rect]; cbn [dispatch fst snd].
  - repeat split.
  - unfold handlePointerMove. cbn [panState fst snd].
    destruct (PanState.dragging pan
              && (PanState.pointerId pan =? PointerEvent.pointerId evt)%Z);
      repeat split.
  - unfold handlePointerUp. cbn [panState].
    destruct (PanState.pointerId pan =? PointerEvent.pointerId evt)%Z;
      repeat split.
  - repeat split.
  - unfold handleClick.
    change (getCellFromClientPoint props
              (mkState sc off hov sel size' pan cv cap)
              (MouseEvent.clientX evt) (MouseEvent.clientY evt))
      with (getCellFromClientPoint props
              (mkState sc off hov sel size pan cv cap)
              (MouseEvent.clientX evt) (MouseEvent.clientY evt)).
    destruct (getCellFromClientPoint props _ _ _); repeat split.
  - unfold handleWheel. cbn [canvasRef scale offset].
    destruct cv as [canvas |]; [| repeat split].
    destruct (Qeq_bool _ sc); repeat split.
  - repeat split.
Qed.

(** The mount effect changes nothing but the stored surface size, along
    every run: the run from the mounted state makes the same calls as the
    run from the first render and ends in a state that differs from its end
    state at most in the stored size. *)
Lemma run_from_mounted_state (props : CanvasGridProps)
  (canvas : option Canvas) (container : option Container)
  (evs : list Event) :
  sameButSize (fst (run props (initialState canvas) evs))
    (fst (run props (mountEffect container (initialState canvas)) evs))
  /\ snd (run props (mountEffect container (initialState canvas)) evs)
     = snd (run props (initialState canvas) evs).
Proof.
  assert (Hrun : forall (evs : list Event) (s s' : State),
             sameButSize s s' ->
             sameButSize (fst (run props s evs)) (fst (run props s' evs))
             /\ snd (run props s' evs) = snd (run props s evs)).
  { clear evs. induction evs as [| ev evs IH]; intros s s' Hs.
    - split; [exact Hs | reflexivity].
    - cbn [run].
      destruct (dispatch_sameButSize props s s' ev Hs) as [Hs1 Hc1].
      destruct (dispatch props s ev) as [s1 calls1].
      destruct (dispatch props s' ev) as [s1' calls1'].
      cbn [fst snd] in Hs1, Hc1.
      destruct (IH s1 s1' Hs1) as [Hs2 Hc2].
      destruct (run props s1 evs) as [s2 calls2].
      destruct (run props s1' evs) as [s2' calls2'].
      cbn [fst snd] in *. split; [exact Hs2 | congruence]. }
  apply Hrun. destruct container; repeat split.
Qed.

(** ** Hit testing, continued *)

(** X16. Only the position relative to the surface matters: moving the
    surface and the pointer by the same vector (a scrolled page) changes
    neither the hit test nor the scale and offset a wheel event produces. *)
Theorem surface_position_is_irrelevant (props : CanvasGridProps)
  (st : State) (canvas : Canvas) (dx dy clientX clientY deltaY : Q) :
  canvasRef st = Some canvas ->
  let rect := Canvas.getBoundingClientRect canvas in
  let moved :=
    Canvas.mk (DOMRect.mk (DOMRect.left rect + dx) (DOMRect.top rect + dy))
      (Canvas.width canvas) (Canvas.height canvas)
      (Canvas.context2d canvas) in
  let st' :=
    mkState (scale st) (offset st) (hoveredCell st) (selectedCell st)
      (canvasSize st) (panState st) (Some moved) (pointerCapture st) in
  getCellFromClientPoint props st' (clientX + dx) (clientY + dy)
  = getCellFromClientPoint props st clientX clientY
  /\
  scale (handleWheel st' (WheelEvent.mk (clientX + dx) (clientY + dy) deltaY))
  = scale (handleWheel st (WheelEvent.mk clientX clientY deltaY))
  /\
  Point.x (offset (handleWheel st'
                     (WheelEvent.mk (clientX + dx) (clientY + dy) deltaY)))
  == Point.x (offset (handleWheel st
                        (WheelEvent.mk clientX clientY deltaY)))
  /\
  Point.y (offset (handleWheel st'
                     (WheelEvent.mk (clientX + dx) (clientY + dy) deltaY)))
  == Point.y (offset (handleWheel st
                        (WheelEvent.mk clientX clientY deltaY))).
Proof.
  intros Hcanvas rect moved st'. split.
  - unfold getCellFromClientPoint. rewrite Hcanvas.
    cbn [st' canvasRef scale offset moved Canvas.getBoundingClientRect
         DOMRect.left DOMRect.top]. cbv zeta. fold rect.
    assert (Hnx : clientX + dx - (DOMRect.left rect + dx)
                  - Point.x (offset st)
                  == clientX - DOMRect.left rect - Point.x (offset st))
      by ring.
    assert (Hny : clientY + dy - (DOMRect.top rect + dy)
                  - Point.y (offset st)
                  == clientY - DOMRect.top rect - Point.y (offset st))
      by ring.
    rewrite (Qfloor_comp _ _
               (Qdiv_comp _ _ (Qdiv_comp _ _ Hnx _ _ (Qeq_refl (scale st)))
                  _ _ (Qeq_refl (Props.cellSize props)))).
    rewrite (Qfloor_comp _ _
               (Qdiv_comp _ _ (Qdiv_comp _ _ Hny _ _ (Qeq_refl (scale st)))
                  _ _ (Qeq_refl (Props.cellSize props)))).
    reflexivity.
  - unfold handleWheel. rewrite Hcanvas.
    cbn [st' canvasRef scale offset moved Canvas.getBoundingClientRect
         DOMRect.left DOMRect.top WheelEvent.clientX WheelEvent.clientY
         WheelEvent.deltaY]. cbv zeta. fold rect.
    destruct (Qeq_bool (clamp (scale st - deltaY * 0.001)
                          MIN_SCALE MAX_SCALE) (scale st)).
    + cbn [scale offset]. repeat split; reflexivity.
    + cbn [scale offset setScale setOffset Point.x Point.y].
      split; [reflexivity |]. split; ring.
Qed.

(** ** Rendering, continued *)

Lemma loopIndices_length (n : Q) :
  length (loopIndices n) = Z.to_nat (Qfloor n + 1).
Proof. unfold loopIndices. rewrite List.length_map, List.length_seq. reflexivity. Qed.

(** Each grid line is one [stroke]. *)
Lemma strokes_of_lines (line : Z -> list Ctx.op) (indices : list Z) :
  (forall i, List.filter isStroke (line i) = [Ctx.stroke]) ->
  length (List.filter isStroke (flat_map line indices)) = length indices.
Proof.
  intros Hline. induction indices as [| i indices IH]; [reflexivity |].
  cbn [flat_map]. rewrite List.filter_app, List.length_app, Hline, IH.
  reflexivity.
Qed.

(** X17. Every grid line is stroked on every repaint: for a grid of [n] rows
    and [m] columns the render effect issues [(n + 1) + (m + 1)] strokes,
    whatever the scale, the offset, the surface size, the pixel ratio and
    the hovered and selected cells are; nothing of the grid is culled. *)
Theorem render_strokes_every_grid_line (props : CanvasGridProps)
  (devicePixelRatio : Q) (st : State) (canvas : Canvas) (n m : nat) :
  canvasRef st = Some canvas ->
  Canvas.context2d canvas = true ->
  Props.rows props == inject_Z (Z.of_nat n) ->
  Props.cols props == inject_Z (Z.of_nat m) ->
  length (List.filter isStroke (renderEffect props devicePixelRatio st))
  = ((n + 1) + (m + 1))%nat.
Proof.
  intros Hcanvas Hctx Hrows Hcols.
  unfold renderEffect. rewrite Hcanvas, Hctx. cbn [negb]. cbv zeta.
  rewrite !List.filter_app, !List.length_app.
  rewrite !strokes_of_lines by (intros i; reflexivity).
  rewrite !loopIndices_length.
  rewrite (Qfloor_comp _ _ Hrows), (Qfloor_comp _ _ Hcols), !Qfloor_Z.
  assert (Hhov : List.filter isStroke (drawHovered props st) = [])
    by (unfold drawHovered; destruct (hoveredCell st); reflexivity).
  assert (Hsel : List.filter isStroke (drawSelected props st) = [])
    by (unfold drawSelected; destruct (selectedCell st); reflexivity).
  rewrite Hhov, Hsel. cbn [List.filter isStroke length]. lia.
Qed.

Lemma Forall_lines (P : Ctx.op -> Prop) (line : Z -> list Ctx.op)
  (indices : list Z) :
  (forall i, Forall P (line i)) -> Forall P (flat_map line indices).
Proof.
  intros Hline. induction indices as [| i indices IH]; cbn [flat_map].
  - constructor.
  - apply Forall_app. split; [apply Hline | exact IH].
Qed.

(** X18. The render effect is bracketed: on a mounted canvas with a 2D
    context it begins with [save], resets the transform and clears the whole
    backing store before anything else, ends with [restore], and saves and
    restores nowhere in between; without a canvas or a context it draws
    nothing. *)
Theorem render_is_bracketed (props : CanvasGridProps)
  (devicePixelRatio : Q) (st : State) :
  match canvasRef st with
  | Some canvas =>
      if Canvas.context2d canvas then
        exists body : list Ctx.op,
          renderEffect props devicePixelRatio st
          = [ Ctx.save; Ctx.setTransform 1 0 0 1 0 0;
              Ctx.clearRect 0 0 (Canvas.width canvas) (Canvas.height canvas) ]
            ++ body ++ [ Ctx.restore ]
          /\ Forall (fun o => isSaveOrRestore o = false) body
      else renderEffect props devicePixelRatio st = []
  | None => renderEffect props devicePixelRatio st = []
  end.
Proof.
  unfold renderEffect.
  destruct (canvasRef st) as [canvas |]; [| reflexivity].
  destruct (Canvas.context2d canvas); [| reflexivity]. cbn [negb]. cbv zeta.
  set (dpr := if Qeq_bool devicePixelRatio 0 then 1 else devicePixelRatio).
  set (gridWidth := Props.cols props * Props.cellSize props).
  set (gridHeight := Props.rows props * Props.cellSize props).
  set (rowLines := flat_map _ (loopIndices (Props.rows props))).
  set (colLines := flat_map _ (loopIndices (Props.cols props))).
  exists ([ Ctx.scale dpr dpr;
            Ctx.translate (Point.x (offset st)) (Point.y (offset st));
            Ctx.scale (scale st) (scale st);
            Ctx.fillStyle
              (LinearGradient 0 0 gridWidth gridHeight
                 [(0, "#0f0f15"%string); (1, "#111820"%string)]);
            Ctx.fillRect 0 0 gridWidth gridHeight;
            Ctx.strokeStyle (Color "#242628");
            Ctx.lineWidth (1 / scale st) ]
          ++ rowLines ++ colLines
          ++ drawHovered props st ++ drawSelected props st).
  split.
  - rewrite <- !app_assoc. reflexivity.
  - assert (Hrows : Forall (fun o => isSaveOrRestore o = false) rowLines).
    { apply Forall_lines. intros r. repeat constructor. }
    assert (Hcols : Forall (fun o => isSaveOrRestore o = false) colLines).
    { apply Forall_lines. intros c. repeat constructor. }
    assert (Hhov : Forall (fun o => isSaveOrRestore o = false)
                     (drawHovered props st)).
    { unfold drawHovered. destruct (hoveredCell st); repeat constructor. }
    assert (Hsel : Forall (fun o => isSaveOrRestore o = false)
                     (drawSelected props st)).
    { unfold drawSelected. destruct (selectedCell st); repeat constructor. }
    repeat (apply Forall_app; split); try assumption.
    repeat constructor.
Qed.

(** X19. Grid lines stay within the grid: for a non-negative cell size and
    non-negative row and column counts, every end point of a path the render
    effect draws lies in the rectangle from (0, 0) to
    [(cols * cellSize, rows * cellSize)] of grid space. *)
Theorem grid_lines_stay_in_extent (props : CanvasGridProps)
  (devicePixelRatio : Q) (st : State) (x y : Q) :
  0 <= Props.cellSize props ->
  0 <= Props.rows props ->
  0 <= Props.cols props ->
  In (Ctx.moveTo x y) (renderEffect props devicePixelRatio st)
  \/ In (Ctx.lineTo x y) (renderEffect props devicePixelRatio st) ->
  0 <= x <= Props.cols props * Props.cellSize props
  /\ 0 <= y <= Props.rows props * Props.cellSize props.
Proof.
  intros Hcs Hrows Hcols Hin.
  assert (Hgw : 0 <= Props.cols props * Props.cellSize props)
    by (apply Qmult_le_0_compat; assumption).
  assert (Hgh : 0 <= Props.rows props * Props.cellSize props)
    by (apply Qmult_le_0_compat; assumption).
  assert (Hline : forall (n : Q) (i : Z),
             In i (loopIndices n) ->
             0 <= inject_Z i * Props.cellSize props
                <= n * Props.cellSize props).
  { intros n i Hi. apply loopIndices_spec in Hi as [Hi0 Hin'].
    split.
    - apply Qmult_le_0_compat; [| exact Hcs].
      change 0 with (inject_Z 0). rewrite <- Zle_Qle. exact Hi0.
    - apply Qmult_le_compat_r; assumption. }
  unfold renderEffect in Hin.
  destruct (canvasRef st) as [canvas |]; [| destruct Hin as [[] | []]].
  destruct (Canvas.context2d canvas); [| destruct Hin as [[] | []]].
  cbn [negb] in Hin. cbv zeta in Hin.
  rewrite !List.in_app_iff, !List.in_flat_map in Hin.
  assert (Hhov : forall o, In o (drawHovered props st) ->
                           o <> Ctx.moveTo x y /\ o <> Ctx.lineTo x y).
  { unfold drawHovered. intros o Ho. destruct (hoveredCell st);
      cbn [In] in Ho; intuition (subst; discriminate). }
  assert (Hsel : forall o, In o (drawSelected props st) ->
                           o <> Ctx.moveTo x y /\ o <> Ctx.lineTo x y).
  { unfold drawSelected. intros o Ho. destruct (selectedCell st);
      cbn [In] in Ho; intuition (subst; discriminate). }
  destruct Hin as [Hin | Hin];
    destruct Hin as [Hin | [(i & Hi & Hin) | [(i & Hi & Hin)
                    | [Hin | [Hin | Hin]]]]].
  all: try (cbn [In] in Hin; intuition discriminate).
  all: try (exfalso; apply Hhov in Hin; tauto).
  all: try (exfalso; apply Hsel in Hin; tauto).
  all: cbn [In] in Hin;
    destruct Hin as [Hin | [Hin | [Hin | [Hin | []]]]];
    try discriminate; injection Hin as <- <-.
  all: pose proof (Hline _ i Hi) as [Hl0 Hl1]; repeat split;
    first [assumption | apply Qle_refl].
Qed.

(** ** The host application *)

(** A printed cell never reads as the dash. *)
Lemma formatCoords_not_dash (row col : Z) :
  formatCoords row col <> "–"%string.
Proof. unfold formatCoords. cbn. discriminate. Qed.

Lemma App_dispatch_sync (st : State) (app : App.t) (ev : Event) :
  App.hoverCoords app = labelOf (hoveredCell st) ->
  App.selectedCoords app = labelOf (selectedCell st) ->
  let st' := fst (dispatch App_props st ev) in
  let app' := fold_left App_call (snd (dispatch App_props st ev)) app in
  App.hoverCoords app' = labelOf (hoveredCell st')
  /\ App.selectedCoords app' = labelOf (selectedCell st').
Proof.
  intros Hhov Hsel.
  destruct ev as [evt | evt | evt | | evt | evt | rect];
    cbn [dispatch fst snd]; cbv zeta.
  - split; assumption.
  - destruct (handlePointerMove_hover App_props st evt) as [Hcell Hcalls].
    cbv zeta in Hcell, Hcalls. rewrite Hcalls, Hcell.
    assert (Hsame : selectedCell (fst (handlePointerMove App_props st evt))
                    = selectedCell st).
    { unfold handlePointerMove. cbn [fst].
      destruct (PanState.dragging (panState st)
                && (PanState.pointerId (panState st)
                    =? PointerEvent.pointerId evt)%Z); reflexivity. }
    rewrite Hsame.
    destruct (getCellFromClientPoint App_props st _ _) as [c |] eqn:Hc.
    + apply getCellFromClientPoint_in_grid in Hc as (Hr & _ & Hcl & _).
      cbn [App_props Props.onHover optionalCall fold_left App_call
           App_onHover App.hoverCoords App.selectedCoords labelOf].
      apply Z.leb_le in Hr, Hcl. rewrite Hr, Hcl.
      split; [reflexivity | exact Hsel].
    + split; [reflexivity | exact Hsel].
  - unfold handlePointerUp.
    destruct (PanState.pointerId (panState st)
              =? PointerEvent.pointerId evt)%Z; split; assumption.
  - split; [reflexivity | exact Hsel].
  - unfold handleClick.
    destruct (getCellFromClientPoint App_props st _ _) as [c |].
    + split; [exact Hhov | reflexivity].
    + split; assumption.
  - destruct (handleWheel_cases st evt) as [[-> _] | (canvas & _ & _ & ->)];
      split; assumption.
  - split; assumption.
Qed.

Lemma App_run_sync (evs : list Event) :
  forall (st : State) (app : App.t),
    App.hoverCoords app = labelOf (hoveredCell st) ->
    App.selectedCoords app = labelOf (selectedCell st) ->
    let st' := fst (run App_props st evs) in
    let app' := fold_left App_call (snd (run App_props st evs)) app in
    App.hoverCoords app' = labelOf (hoveredCell st')
    /\ App.selectedCoords app' = labelOf (selectedCell st').
Proof.
  induction evs as [| ev evs IH]; intros st app Hhov Hsel.
  - split; assumption.
  - cbn [run].
    destruct (App_dispatch_sync st app ev Hhov Hsel) as [Hhov1 Hsel1].
    destruct (dispatch App_props st ev) as [st1 calls1].
    cbn [fst snd] in Hhov1, Hsel1.
    specialize (IH st1 (fold_left App_call calls1 app) Hhov1 Hsel1).
    destruct (run App_props st1 evs) as [st2 calls2].
    cbn [fst snd] in *. rewrite fold_left_app. exact IH.
Qed.

(** X20. The status line of [App] stays in step with the grid: after any
    events from the first render, the hover label is the printed hovered
    cell, or the dash when no cell is hovered, and the selection label is
    the printed selected cell, or the dash when none is selected; a printed
    cell is never the dash, so each label is the dash exactly when its cell
    is absent. *)
Theorem App_labels_follow_cells (canvas : option Canvas) (evs : list Event) :
  let st := fst (App_run canvas evs) in
  let app := snd (App_run canvas evs) in
  App.hoverCoords app
  = match hoveredCell st with
    | Some c => formatCoords (Cell.row c) (Cell.col c)
    | None => "–"%string
    end
  /\
  App.selectedCoords app
  = match selectedCell st with
    | Some c => formatCoords (Cell.row c) (Cell.col c)
    | None => "–"%string
    end
  /\
  (App.hoverCoords app = "–"%string <-> hoveredCell st = None)
  /\
  (App.selectedCoords app = "–"%string <-> selectedCell st = None).
Proof.
  cbv zeta. unfold App_run.
  pose proof (App_run_sync evs (initialState canvas) App_initial
                eq_refl eq_refl) as [Hhov Hsel].
  destruct (run App_props (initialState canvas) evs) as [st calls].
  cbn [fst snd] in *. unfold labelOf in Hhov, Hsel.
  split; [exact Hhov |]. split; [exact Hsel |].
  split.
  - rewrite Hhov. destruct (hoveredCell st) as [c |].
    + split; [intros H; exfalso; exact (formatCoords_not_dash _ _ H)
             | discriminate].
    + split; reflexivity.
  - rewrite Hsel. destruct (selectedCell st) as [c |].
    + split; [intros H; exfalso; exact (formatCoords_not_dash _ _ H)
             | discriminate].
    + split; reflexivity.
Qed.

(** ** Repeated zoom *)

(** X21. Repeated zoom accumulates and then saturates: on a mounted canvas
    with a scale within bounds, [n] wheel events with the same delta [d]
    leave the scale equal to [clamp (scale - n * (d * 0.001)) 0.25 4]: the
    steps add up until a bound is reached and stay there. *)
Theorem repeated_zoom_saturates (props : CanvasGridProps) (canvas : Canvas)
  (clientX clientY deltaY : Q) (n : nat) :
  forall st : State,
    canvasRef st = Some canvas ->
    MIN_SCALE <= scale st <= MAX_SCALE ->
    scale (fst (run props st
                  (repeat (Wheel (WheelEvent.mk clientX clientY deltaY)) n)))
    == clamp (scale st - inject_Z (Z.of_nat n) * (deltaY * 0.001))
         MIN_SCALE MAX_SCALE.
Proof.
  pose proof MIN_SCALE_le_MAX_SCALE as Hbounds.
  set (evt := WheelEvent.mk clientX clientY deltaY).
  set (step := deltaY * 0.001).
  induction n as [| n IH]; intros st Hcanvas Hst.
  - cbn [repeat run fst].
    change (inject_Z (Z.of_nat 0)) with 0.
    destruct (clamp_spec (scale st - 0 * step) MIN_SCALE MAX_SCALE Hbounds)
      as [[Hv Hc] | [[Hv Hc] | [Hv Hc]]];
      rewrite Hc; lra.
  - cbn [repeat run dispatch].
    pose proof (handleWheel_scale_bounds st evt Hst) as Hst1.
    assert (Hcanvas1 : canvasRef (handleWheel st evt) = Some canvas)
      by (rewrite handleWheel_canvasRef; exact Hcanvas).
    pose proof (handleWheel_scale_value st evt canvas Hcanvas) as Hs1.
    cbn [evt WheelEvent.deltaY] in Hs1. fold step in Hs1.
    specialize (IH (handleWheel st evt) Hcanvas1 Hst1).
    destruct (run props (handleWheel st evt) (repeat (Wheel evt) n))
      as [st2 calls2].
    cbn [fst] in *. rewrite IH.
    set (k := inject_Z (Z.of_nat n)) in *.
    assert (Hk : 0 <= k)
      by (unfold k; change 0 with (inject_Z 0); rewrite <- Zle_Qle; lia).
    assert (Hsucc : inject_Z (Z.of_nat (S n)) * step == k * step + step).
    { rewrite Nat2Z.inj_succ. unfold Z.succ. rewrite inject_Z_plus.
      fold k. change (inject_Z 1) with 1. ring. }
    assert (Hsign : (0 <= step /\ 0 <= k * step)
                    \/ (step <= 0 /\ k * step <= 0)).
    { destruct (Qlt_le_dec step 0) as [Hneg | Hpos].
      - right. split; [lra |].
        assert (Hopp : k * step == - (k * - step)) by ring.
        assert (0 <= k * - step) by (apply Qmult_le_0_compat; lra).
        rewrite Hopp. lra.
      - left. split; [exact Hpos | apply Qmult_le_0_compat; assumption]. }
    set (p := k * step) in *.
    destruct (clamp_spec (scale st - step) MIN_SCALE MAX_SCALE Hbounds)
      as [[Hv1 Hc1] | [[Hv1 Hc1] | [Hv1 Hc1]]];
      destruct (clamp_spec (scale (handleWheel st evt) - p)
                  MIN_SCALE MAX_SCALE Hbounds)
        as [[Hv2 Hc2] | [[Hv2 Hc2] | [Hv2 Hc2]]];
      destruct (clamp_spec
                  (scale st - inject_Z (Z.of_nat (S n)) * step)
                  MIN_SCALE MAX_SCALE Hbounds)
        as [[Hv3 Hc3] | [[Hv3 Hc3] | [Hv3 Hc3]]];
      rewrite Hc2, Hc3; destruct Hsign as [[Hs Hp] | [Hs Hp]];
      unfold MIN_SCALE, MAX_SCALE in *; lra.
Qed.

(** ** The further properties at concrete inputs *)

Lemma clamp_cases_witness : clamp 5 0.25 4 == 4 /\ clamp 1 4 0.25 == 0.25.
Proof.
  split.
  - apply (proj1 (proj2 (proj1 (clamp_cases 5 0.25 4) ltac:(by_evaluation)))).
    by_evaluation.
  - apply (proj2 (clamp_cases 1 4 0.25)). by_evaluation.
Defined.

Lemma wheel_direction_witness :
  let st := initialState (Some canvasAtOrigin) in
  scale st <= scale (handleWheel st (WheelEvent.mk 100 100 (-100))).
Proof.
  intros st.
  assert (Hbounds : MIN_SCALE <= scale st <= MAX_SCALE)
    by (split; by_evaluation).
  destruct (wheel_direction st (WheelEvent.mk 100 100 (-100)) Hbounds)
    as (Hin & _).
  apply Hin. by_evaluation.
Defined.

Lemma zoom_steps_compose_witness :
  let st := initialState (Some canvasBelowHeader) in
  let st' :=
    fst (run App_props st
           (map (fun deltaY => Wheel (WheelEvent.mk 110 120 deltaY))
              [-1000; 500; 2000])) in
  Point.x (offset st')
  == (110 - 10) - ((110 - 10) - Point.x (offset st)) * (scale st' / scale st).
Proof.
  intros st st'.
  assert (Hbounds : MIN_SCALE <= scale st <= MAX_SCALE)
    by (split; by_evaluation).
  exact (proj1 (proj2 (zoom_steps_compose App_props canvasBelowHeader
                         110 120 [-1000; 500; 2000] st eq_refl Hbounds))).
Defined.

Lemma zoom_in_out_round_trip_witness :
  let st := initialState (Some canvasBelowHeader) in
  let st' :=
    fst (run App_props st
           [ Wheel (WheelEvent.mk 300 200 (-500));
             Wheel (WheelEvent.mk 300 200 (- -500)) ]) in
  scale st' == scale st /\ Point.x (offset st') == Point.x (offset st).
Proof.
  intros st st'.
  assert (Hbounds : MIN_SCALE <= scale st <= MAX_SCALE)
    by (split; by_evaluation).
  assert (Hmid : MIN_SCALE <= scale st - -500 * 0.001 <= MAX_SCALE)
    by (split; by_evaluation).
  destruct (zoom_in_out_round_trip App_props st canvasBelowHeader
              300 200 (-500) eq_refl Hbounds Hmid) as (Hs & Hx & _).
  split; [exact Hs | exact Hx].
Defined.

Lemma view_moves_only_by_pan_or_zoom_witness :
  let st := setScale 2 (initialState (Some canvasAtOrigin)) in
  let evs :=
    [ PointerDown (PointerEvent.mk 1 10 10);
      PointerUp (PointerEvent.mk 1 10 10);
      Click (MouseEvent.mk 10 10);
      Resize (Size.mk 600 400);
      PointerLeave ] in
  offset (fst (run App_props st evs)) = offset st.
Proof.
  intros st evs.
  assert (Hevs : Forall (fun ev => (forall e, ev <> PointerMove e)
                                   /\ (forall e, ev <> Wheel e)) evs)
    by (repeat constructor; discriminate).
  exact (proj1 (proj2 (view_moves_only_by_pan_or_zoom App_props st evs Hevs))).
Defined.

Lemma drag_offset_is_absolute_witness :
  let st0 := initialState (Some canvasAtOrigin) in
  let down := PointerEvent.mk 1 10 10 in
  let evs :=
    [ PointerMove (PointerEvent.mk 1 40 40);
      Wheel (WheelEvent.mk 40 40 (-1000));
      PointerMove (PointerEvent.mk 2 0 0) ] in
  let st2 := fst (run App_props (handlePointerDown st0 down) evs) in
  offset (fst (handlePointerMove App_props st2 (PointerEvent.mk 1 25 4)))
  = Point.mk (0 + (25 - 10)) (0 + (4 - 10)).
Proof.
  intros st0 down evs st2.
  assert (Hevs : Forall (fun ev => (forall e, ev <> PointerDown e)
                                   /\ (forall e, ev <> PointerUp e)) evs)
    by (repeat constructor; discriminate).
  exact (proj1 (drag_offset_is_absolute App_props st0 down
                  (PointerEvent.mk 1 25 4) evs Hevs eq_refl)).
Defined.

Lemma grabbed_point_follows_pointer_witness :
  let st0 := initialState (Some canvasAtOrigin) in
  let down := PointerEvent.mk 1 70 100 in
  let evs := [ PointerMove (PointerEvent.mk 1 90 90); PointerLeave ] in
  let st2 := fst (run App_props (handlePointerDown st0 down) evs) in
  let st3 :=
    fst (handlePointerMove App_props st2 (PointerEvent.mk 1 500 300)) in
  (500 - 0 - Point.x (offset st3)) / scale st3
  == (70 - 0 - Point.x (offset st0)) / scale st0.
Proof.
  intros st0 down evs st2 st3.
  assert (Hevs : Forall (fun ev => (forall e, ev <> PointerDown e)
                                   /\ (forall e, ev <> PointerUp e)
                                   /\ (forall e, ev <> Wheel e)) evs)
    by (repeat constructor; discriminate).
  exact (proj1 (proj2 (grabbed_point_follows_pointer App_props st0
                         (DOMRect.mk 0 0) down (PointerEvent.mk 1 500 300)
                         evs Hevs eq_refl))).
Defined.

Lemma last_pointer_wins_witness :
  let st2 :=
    handlePointerDown
      (handlePointerDown (initialState (Some canvasAtOrigin))
         (PointerEvent.mk 1 10 10))
      (PointerEvent.mk 2 50 50) in
  offset (fst (handlePointerMove App_props st2 (PointerEvent.mk 1 30 30)))
  = Point.mk 0 0.
Proof.
  intros st2.
  assert (Hne : PointerEvent.pointerId (PointerEvent.mk 1 10 10)
                <> PointerEvent.pointerId (PointerEvent.mk 2 50 50))
    by discriminate.
  exact (proj1 (last_pointer_wins App_props
                  (initialState (Some canvasAtOrigin))
                  (PointerEvent.mk 1 10 10) (PointerEvent.mk 2 50 50) Hne)
           (PointerEvent.mk 1 30 30) eq_refl).
Defined.

Lemma tap_selects_without_panning_witness :
  let st := initialState (Some canvasAtOrigin) in
  let result :=
    run App_props st
      [ PointerDown (PointerEvent.mk 1 64 96);
        PointerUp (PointerEvent.mk 1 64 96);
        Click (MouseEvent.mk 64 96) ] in
  offset (fst result) = offset st
  /\ PanState.dragging (panState (fst result)) = false.
Proof.
  intros st result.
  destruct (tap_selects_without_panning App_props st
              (PointerEvent.mk 1 64 96) (PointerEvent.mk 1 64 96)
              (MouseEvent.mk 64 96) eq_refl) as (_ & Hoff & Hidle & _).
  split; [exact Hoff | exact Hidle].
Defined.

Lemma dragging_pointer_is_captured_witness :
  let st :=
    fst (run App_props (initialState (Some canvasAtOrigin))
           [ PointerDown (PointerEvent.mk 1 10 10);
             PointerDown (PointerEvent.mk 2 20 20);
             PointerUp (PointerEvent.mk 1 10 10) ]) in
  PanState.pointerId (panState st) ∈ pointerCapture st.
Proof.
  intros st.
  exact (dragging_pointer_is_captured App_props (Some canvasAtOrigin)
           [ PointerDown (PointerEvent.mk 1 10 10);
             PointerDown (PointerEvent.mk 2 20 20);
             PointerUp (PointerEvent.mk 1 10 10) ] eq_refl).
Defined.

Lemma mount_size_is_positive_witness :
  let st' :=
    mountEffect (Some (Container.mk 0 150))
      (initialState (Some canvasAtOrigin)) in
  Size.width (canvasSize st') = 1200 /\ Size.height (canvasSize st') = 150.
Proof.
  intros st'.
  assert (Hw : 0 <= Container.clientWidth (Container.mk 0 150))
    by by_evaluation.
  assert (Hh : 0 <= Container.clientHeight (Container.mk 0 150))
    by by_evaluation.
  destruct (mount_size_is_positive (Container.mk 0 150)
              (initialState (Some canvasAtOrigin)) Hw Hh)
    as (_ & _ & Hw0 & _ & _ & Hh1 & _).
  split; [apply Hw0; by_evaluation | apply Hh1; by_evaluation].
Defined.

Lemma cells_stay_in_grid_witness :
  let st :=
    fst (run App_props
           (mountEffect (Some (Container.mk 50 30))
              (initialState (Some canvasAtOrigin)))
           [ PointerMove (PointerEvent.mk 1 70 100);
             Click (MouseEvent.mk 70 100) ]) in
  match selectedCell st with
  | Some c =>
      (0 <= Cell.row c)%Z /\ inject_Z (Cell.row c) < Props.rows App_props /\
      (0 <= Cell.col c)%Z /\ inject_Z (Cell.col c) < Props.cols App_props
  | None => True
  end.
Proof.
  intros st.
  assert (Hcs : 0 < Props.cellSize App_props) by by_evaluation.
  exact (proj2 (cells_stay_in_grid App_props (Some canvasAtOrigin)
                  (Some (Container.mk 50 30))
                  [ PointerMove (PointerEvent.mk 1 70 100);
                    Click (MouseEvent.mk 70 100) ] Hcs)).
Defined.

(** A 50 x 30 container: the mounted size stays 50 x 30 until a resize
    notification, which raises it to at least 200 x 200. *)
Lemma surface_size_floor_after_resize_witness :
  let st :=
    mountEffect (Some (Container.mk 50 30))
      (initialState (Some canvasAtOrigin)) in
  canvasSize (fst (run App_props st
                     [ PointerMove (PointerEvent.mk 1 70 100);
                       Click (MouseEvent.mk 70 100) ]))
  = Size.mk 50 30
  /\
  200 <= Size.width
           (canvasSize (fst (run App_props st
                               ([ PointerMove (PointerEvent.mk 1 70 100) ]
                                ++ Resize (Size.mk 50 30)
                                   :: [ Click (MouseEvent.mk 70 100) ])))).
Proof.
  intros st.
  destruct (surface_size_floor_after_resize App_props st)
    as (_ & _ & Hresized & Hkept).
  split.
  - apply (Hkept [ PointerMove (PointerEvent.mk 1 70 100);
                   Click (MouseEvent.mk 70 100) ]).
    repeat constructor; discriminate.
  - exact (proj1 (Hresized [ PointerMove (PointerEvent.mk 1 70 100) ]
                    [ Click (MouseEvent.mk 70 100) ] (Size.mk 50 30))).
Defined.

Lemma surface_position_is_irrelevant_witness :
  let st := initialState (Some canvasAtOrigin) in
  let st' := initialState (Some canvasBelowHeader) in
  getCellFromClientPoint App_props st' (64 + 10) (96 + 20)
  = getCellFromClientPoint App_props st 64 96.
Proof.
  intros st st'.
  exact (proj1 (surface_position_is_irrelevant App_props st canvasAtOrigin
                  10 20 64 96 0 eq_refl)).
Defined.

Lemma render_strokes_every_grid_line_witness :
  length (List.filter isStroke
            (renderEffect App_props 2
               (setScale 3 (initialState (Some canvasAtOrigin)))))
  = 402%nat.
Proof.
  apply (render_strokes_every_grid_line App_props 2
           (setScale 3 (initialState (Some canvasAtOrigin)))
           canvasAtOrigin 200 200 eq_refl eq_refl); by_evaluation.
Defined.

Lemma grid_lines_stay_in_extent_witness :
  0 <= 32 <= 1 * 32 /\ 0 <= 64 <= 2 * 32.
Proof.
  apply (grid_lines_stay_in_extent (Props.mk 2 1 32 true true) 1
           (initialState (Some canvasAtOrigin)) 32 64);
    try by_evaluation.
  right. vm_compute. do 20 right. left. reflexivity.
Defined.

Lemma repeated_zoom_saturates_witness :
  scale (fst (run App_props (initialState (Some canvasAtOrigin))
                (repeat (Wheel (WheelEvent.mk 100 100 (-100))) 40)))
  == 4.
Proof.
  assert (Hbounds : MIN_SCALE <= scale (initialState (Some canvasAtOrigin))
                    <= MAX_SCALE) by (split; by_evaluation).
  rewrite (repeated_zoom_saturates App_props canvasAtOrigin 100 100 (-100)
             40 (initialState (Some canvasAtOrigin)) eq_refl Hbounds).
  by_evaluation.
Defined.
